(** * A shallow embedding of [DatabaseManager] (src/db_manager.py) and of the
    [/db_switch] admin command (src/bot.py).

    The manager is a Python object whose attributes are mutated by its
    methods, and whose methods raise Python exceptions.  It is modelled as a
    state-and-exception monad over a record [S] holding the object's
    attributes, the external world it talks to (the MongoDB and Redis servers,
    the per-user JSON files, the clock), and a small heap of interaction
    dictionaries: the one object [store_interaction] builds is passed by
    reference to [_store_in_database] and [_store_in_file], and pymongo's
    [insert_one] mutates it by adding an ["_id"] key. *)

From Stdlib Require Import String List ZArith QArith Bool Lia.
From Stdlib Require Import DecimalString Sorted Permutation.
Import ListNotations.

Open Scope string_scope.
Open Scope list_scope.

(* ------------------------------------------------------------------ *)
(** ** Python values and helpers *)

(** The exceptions that can escape or be caught in the modelled code. *)
Inductive exn :=
| AttributeError   (* reading [self.db_stats] before it is assigned *)
| KeyError         (* [self.db_stats[db_name]] for a name without stats *)
| TypeError        (* [json.dumps] of a dict holding an ObjectId *)
| ServerError      (* any error raised by a database client *)
| OSError.         (* [os.makedirs] failing *)

(** [str(e)], stored in ["last_error"]. *)
Definition exn_str (e : exn) : string :=
  match e with
  | AttributeError => "'DatabaseManager' object has no attribute 'db_stats'"
  | KeyError => "KeyError"
  | TypeError => "Object of type ObjectId is not JSON serializable"
  | ServerError => "server error"
  | OSError => "[Errno 13] Permission denied"
  end.

(** The values callers pass as [user_id] / [group_id]: a Telegram id is an
    int, tests and handlers also pass strings; the default is [None]. *)
Inductive pyval := PInt (z : Z) | PStr (s : string) | PNone.

(** [str(v)]. *)
Definition py_str (v : pyval) : string :=
  match v with
  | PInt z => NilZero.string_of_int (Z.to_int z)
  | PStr s => s
  | PNone => "None"
  end.

(** Python truthiness of [v] ([if group_id:]). *)
Definition py_truthy (v : pyval) : bool :=
  match v with
  | PInt z => negb (Z.eqb z 0)
  | PStr s => negb (String.eqb s "")
  | PNone => false
  end.

(** Truthiness of an optional database name ([if self.active_db:]). *)
Definition name_truthy (o : option string) : bool :=
  match o with Some n => negb (String.eqb n "") | None => false end.

(** Python slice index normalisation. *)
Definition py_index (i : Z) (len : nat) : nat :=
  if (i <? 0)%Z then Z.to_nat (Z.max 0 (Z.of_nat len + i))
  else Z.to_nat (Z.min i (Z.of_nat len)).

(** [l[i:]] and [l[:j]]. *)
Definition py_slice_from {A} (i : Z) (l : list A) : list A :=
  skipn (py_index i (length l)) l.
Definition py_slice_to {A} (j : Z) (l : list A) : list A :=
  firstn (py_index j (length l)) l.

(** A Python [dict] keyed by strings, with its insertion order. *)
Fixpoint lookup {A} (k : string) (l : list (string * A)) : option A :=
  match l with
  | [] => None
  | (k', v) :: l' => if String.eqb k k' then Some v else lookup k l'
  end.

Definition mem {A} (k : string) (l : list (string * A)) : bool :=
  match lookup k l with Some _ => true | None => false end.

(** [d[k] = v]: an existing key keeps its position, a new key goes last. *)
Fixpoint assoc_set {A} (k : string) (v : A) (l : list (string * A))
  : list (string * A) :=
  match l with
  | [] => [(k, v)]
  | (k', v') :: l' =>
      if String.eqb k k' then (k, v) :: l' else (k', v') :: assoc_set k v l'
  end.

(** Stable insertion sort; [before x y] says that [x] must come strictly
    before [y].  Python's [sort] (also with [reverse=True]) is stable. *)
Fixpoint insert_by {A} (before : A -> A -> bool) (x : A) (l : list A) : list A :=
  match l with
  | [] => [x]
  | y :: l' => if before x y then x :: y :: l' else y :: insert_by before x l'
  end.

Definition sort_by {A} (before : A -> A -> bool) (l : list A) : list A :=
  fold_left (fun acc x => insert_by before x acc) l [].

(** [x < y] on Python floats, for sizes in MB. *)
Definition qltb (x y : Q) : bool := negb (Qle_bool y x).

(** A priority, or [float('inf')]. *)
Inductive prio := Fin (z : Z) | Inf.

Definition prio_le (a b : prio) : bool :=
  match a, b with
  | _, Inf => true
  | Inf, Fin _ => false
  | Fin x, Fin y => (x <=? y)%Z
  end.

Definition prio_lt (a b : prio) : bool :=
  match a, b with
  | Inf, _ => false
  | Fin _, Inf => true
  | Fin x, Fin y => (x <? y)%Z
  end.

(* ------------------------------------------------------------------ *)
(** ** Data model *)

(** One entry of [db_config["databases"]]; a missing ["max_size_mb"] is
    [float('inf')] ([None]).  Redis entries have no ["collection"]; their
    [collection] is unused. *)
Record dbcfg := mkdbcfg {
  name : string;
  dtype : string;
  uri : string;
  priority : Z;
  collection : string;
  max_size_mb : option Q
}.

Record config := mkconfig {
  databases : list dbcfg;
  auto_failover : bool;
  learning_enabled : bool
}.

(** One value of [self.db_stats]. *)
Record dbstat := mkdbstat {
  status : string;
  size_mb : Q;
  document_count : Z;
  last_updated : string;
  error_count : Z;
  last_error : option string
}.

(** The interaction dict built by [store_interaction].  [group_id] is
    [None] when the key is absent; [oid] is [true] once pymongo has added an
    ["_id"] (an ObjectId, which [json] cannot serialise). *)
Record interaction := mkinteraction {
  user_id : string;
  message : string;
  response : string;
  timestamp : string;
  chat_type : string;
  feedback : option string;
  group_id : option string;
  oid : bool
}.

(** One value of [self.db_connections]: the client handles are identified
    by the database name; [ctype] is ["type"], [cconfig] is ["config"]. *)
Record conn := mkconn { ctype : string; cconfig : dbcfg }.

(** The content of a user's JSON file: a valid array, or a file left
    truncated by a [json.dump] that raised half way. *)
Inductive fcontent := FValid (l : list interaction) | FCorrupt.

(** A write request as seen from outside: to a backend, or to a user file. *)
Inductive wlog := WBackend (n : string) | WFile (u : string).

(** The world outside the process.  Server behaviour is given per database
    name ([w_reachable] per URI: a failing ping or URI parse); a read that
    fails does so after delivering [w_read_after] records (Mongo documents,
    or Redis keys handled); [w_dir_ok] says whether [os.makedirs] of the
    interactions directory succeeds, [w_io_ok] whether files can be opened
    for writing; the clock gives [datetime.now().isoformat()], the Redis key
    timestamp and the random key suffix. *)
Record world := mkworld {
  w_reachable : string -> bool;
  w_write_fail : string -> bool;
  w_read_fail : string -> bool;
  w_read_after : string -> nat;
  w_stats_fail : string -> bool;
  w_size : string -> Z;
  w_mongo : string -> list interaction;
  w_redis : string -> list (string * interaction);
  w_files : string -> option fcontent;
  w_io_ok : bool;
  w_dir_ok : bool;
  w_stats_file : option (list (string * dbstat));
  w_writes : list wlog;
  w_now : string;
  w_key_ts : string;
  w_rand : string
}.

(** The attributes of the [DatabaseManager] object ([db_stats] is [None]
    while the attribute does not exist yet), the world, and the heap of
    interaction dicts. *)
Record S := mkS {
  db_connections : list (string * conn);
  active_db : option string;
  fallback_to_file : bool;
  db_stats : option (list (string * dbstat));
  db_config : config;
  world_ : world;
  heap : list interaction
}.

(* ------------------------------------------------------------------ *)
(** ** Updating records *)

Definition upd {A} (k : string) (v : A) (f : string -> A) : string -> A :=
  fun k' => if String.eqb k' k then v else f k'.

Definition w_with_mongo (w : world) n l : world :=
  mkworld (w_reachable w) (w_write_fail w) (w_read_fail w) (w_read_after w) (w_stats_fail w)
    (w_size w) (upd n l (w_mongo w)) (w_redis w) (w_files w) (w_io_ok w) (w_dir_ok w)
    (w_stats_file w) (w_writes w) (w_now w) (w_key_ts w) (w_rand w).

Definition w_with_redis (w : world) n l : world :=
  mkworld (w_reachable w) (w_write_fail w) (w_read_fail w) (w_read_after w) (w_stats_fail w)
    (w_size w) (w_mongo w) (upd n l (w_redis w)) (w_files w) (w_io_ok w) (w_dir_ok w)
    (w_stats_file w) (w_writes w) (w_now w) (w_key_ts w) (w_rand w).

Definition w_with_file (w : world) u c : world :=
  mkworld (w_reachable w) (w_write_fail w) (w_read_fail w) (w_read_after w) (w_stats_fail w)
    (w_size w) (w_mongo w) (w_redis w) (upd u (Some c) (w_files w)) (w_io_ok w) (w_dir_ok w)
    (w_stats_file w) (w_writes w) (w_now w) (w_key_ts w) (w_rand w).

Definition w_with_stats_file (w : world) m : world :=
  mkworld (w_reachable w) (w_write_fail w) (w_read_fail w) (w_read_after w) (w_stats_fail w)
    (w_size w) (w_mongo w) (w_redis w) (w_files w) (w_io_ok w) (w_dir_ok w)
    (Some m) (w_writes w) (w_now w) (w_key_ts w) (w_rand w).

Definition w_log (w : world) (e : wlog) : world :=
  mkworld (w_reachable w) (w_write_fail w) (w_read_fail w) (w_read_after w) (w_stats_fail w)
    (w_size w) (w_mongo w) (w_redis w) (w_files w) (w_io_ok w) (w_dir_ok w)
    (w_stats_file w) (w_writes w ++ [e]) (w_now w) (w_key_ts w) (w_rand w).

Definition s_with_world (s : S) (w : world) : S :=
  mkS (db_connections s) (active_db s) (fallback_to_file s) (db_stats s)
    (db_config s) w (heap s).

Definition s_with_conns (s : S) c : S :=
  mkS c (active_db s) (fallback_to_file s) (db_stats s)
    (db_config s) (world_ s) (heap s).

Definition s_with_active (s : S) (a : option string) (fb : bool) : S :=
  mkS (db_connections s) a fb (db_stats s) (db_config s) (world_ s) (heap s).

Definition s_with_stats (s : S) m : S :=
  mkS (db_connections s) (active_db s) (fallback_to_file s) (Some m)
    (db_config s) (world_ s) (heap s).

Definition s_with_heap (s : S) h : S :=
  mkS (db_connections s) (active_db s) (fallback_to_file s) (db_stats s)
    (db_config s) (world_ s) h.

Fixpoint list_set {A} (i : nat) (x : A) (l : list A) : list A :=
  match l, i with
  | [], _ => []
  | _ :: l', O => x :: l'
  | y :: l', Datatypes.S i' => y :: list_set i' x l'
  end.

(* ------------------------------------------------------------------ *)
(** ** The state and exception monad *)

Inductive res (A : Type) := Ok (a : A) | Exn (e : exn).
Arguments Ok {A} a.
Arguments Exn {A} e.

(** Mutations made before an exception stay: the object is shared. *)
Definition M (A : Type) := S -> res A * S.

Definition ret {A} (a : A) : M A := fun s => (Ok a, s).
Definition raise {A} (e : exn) : M A := fun s => (Exn e, s).
Definition bind {A B} (m : M A) (k : A -> M B) : M B :=
  fun s => match m s with
           | (Ok a, s') => k a s'
           | (Exn e, s') => (Exn e, s')
           end.
Definition get : M S := fun s => (Ok s, s).
Definition modify (f : S -> S) : M unit := fun s => (Ok tt, f s).

(** [try: m except Exception as e: h(e)]. *)
Definition try_except {A} (m : M A) (h : exn -> M A) : M A :=
  fun s => match m s with
           | (Ok a, s') => (Ok a, s')
           | (Exn e, s') => h e s'
           end.

Notation "x <- m ;; k" := (bind m (fun x => k))
  (at level 61, m at next level, right associativity).
Notation "m ;;; k" := (bind m (fun _ => k))
  (at level 61, right associativity).

(* ------------------------------------------------------------------ *)
(** ** Accessing [self.db_stats] *)

(** [self.db_stats[n]]: [AttributeError] before the attribute exists,
    [KeyError] for a name it does not hold. *)
Definition stat_of (n : string) : M dbstat :=
  s <- get ;;
  match db_stats s with
  | None => raise AttributeError
  | Some m => match lookup n m with
              | None => raise KeyError
              | Some st => ret st
              end
  end.

(** [self.db_stats[n] = st]. *)
Definition put_stat (n : string) (st : dbstat) : M unit :=
  s <- get ;;
  match db_stats s with
  | None => raise AttributeError
  | Some m => modify (fun s => s_with_stats s (assoc_set n st m))
  end.

(** The four statements
    [self.db_stats[n]["status"] = "error"], [["error_count"] += 1],
    [["last_error"] = str(e)], [["last_updated"] = datetime.now().isoformat()]. *)
Definition mark_error (n : string) (e : exn) : M unit :=
  st <- stat_of n ;;
  s <- get ;;
  put_stat n (mkdbstat "error" (size_mb st) (document_count st)
                (w_now (world_ s)) (error_count st + 1)%Z (Some (exn_str e))).

(** [save_db_stats]: its [try] also catches the [AttributeError]. *)
Definition save_db_stats : M unit :=
  s <- get ;;
  match db_stats s with
  | Some m => if w_io_ok (world_ s)
              then modify (fun s => s_with_world s (w_with_stats_file (world_ s) m))
              else ret tt
  | None => ret tt
  end.

Definition in_conns (n : string) : M bool :=
  s <- get ;; ret (mem n (db_connections s)).

Definition conn_of (n : string) : M (option conn) :=
  s <- get ;; ret (lookup n (db_connections s)).

Definition mib : Q := inject_Z 1048576.

(** [update_mongodb_stats]. *)
Definition update_mongodb_stats (db_name : string) : M unit :=
  c <- conn_of db_name ;;
  match c with
  | None => ret tt
  | Some c =>
      try_except
        (if negb (String.eqb (ctype c) "mongodb") then ret tt else
         s <- get ;;
         let w := world_ s in
         (* conn["db"].command("collStats", ...) *)
         if w_stats_fail w db_name then raise ServerError else
         old <- stat_of db_name ;;
         put_stat db_name
           (mkdbstat "connected" (inject_Z (w_size w db_name) / mib)
              (Z.of_nat (length (w_mongo w db_name))) (w_now w)
              (error_count old) (last_error old)) ;;;
         save_db_stats)
        (fun e => mark_error db_name e ;;; save_db_stats)
  end.

(** [update_redis_stats]. *)
Definition update_redis_stats (db_name : string) : M unit :=
  c <- conn_of db_name ;;
  match c with
  | None => ret tt
  | Some c =>
      try_except
        (if negb (String.eqb (ctype c) "redis") then ret tt else
         s <- get ;;
         let w := world_ s in
         (* conn["client"].info("memory") and dbsize() *)
         if w_stats_fail w db_name then raise ServerError else
         old <- stat_of db_name ;;
         put_stat db_name
           (mkdbstat "connected" (inject_Z (w_size w db_name) / mib)
              (Z.of_nat (length (w_redis w db_name))) (w_now w)
              (error_count old) (last_error old)) ;;;
         save_db_stats)
        (fun e => mark_error db_name e ;;; save_db_stats)
  end.

(* ------------------------------------------------------------------ *)
(** ** Construction *)

(** [self.db_connections[db_name] = {...}]. *)
Definition add_conn (db_name : string) (c : conn) : M unit :=
  modify (fun s => s_with_conns s (assoc_set db_name c (db_connections s))).

(** [initialize_mongodb]: [MongoClient] connects lazily, the ping is the
    first round trip. *)
Definition initialize_mongodb (db_name : string) (cfg : dbcfg) : M unit :=
  try_except
    (s <- get ;;
     if negb (w_reachable (world_ s) (uri cfg)) then raise ServerError else
     add_conn db_name (mkconn "mongodb" cfg) ;;;
     update_mongodb_stats db_name)
    (fun e => raise e).

(** [initialize_redis]; a URI whose parsing raises counts as unreachable. *)
Definition initialize_redis (db_name : string) (cfg : dbcfg) : M unit :=
  try_except
    (s <- get ;;
     if negb (w_reachable (world_ s) (uri cfg)) then raise ServerError else
     add_conn db_name (mkconn "redis" cfg) ;;;
     update_redis_stats db_name)
    (fun e => raise e).

Fixpoint initialize_loop (l : list dbcfg) : M unit :=
  match l with
  | [] => ret tt
  | cfg :: l' =>
      (if String.eqb (uri cfg) "" then ret tt else
       try_except
         (if String.eqb (dtype cfg) "mongodb" then initialize_mongodb (name cfg) cfg
          else if String.eqb (dtype cfg) "redis" then initialize_redis (name cfg) cfg
          else ret tt)
         (fun e => mark_error (name cfg) e)) ;;;
      initialize_loop l'
  end.

(** [initialize_databases]. *)
Definition initialize_databases : M unit :=
  s <- get ;; initialize_loop (databases (db_config s)).

(** [is_database_available]. *)
Definition is_database_available (db_name : string) : M bool :=
  c <- conn_of db_name ;;
  match c with
  | None => ret false
  | Some c =>
      st <- stat_of db_name ;;
      if negb (String.eqb (status st) "connected") then ret false else
      ret (match max_size_mb (cconfig c) with
           | None => true
           | Some m => qltb (size_mb st) m
           end)
  end.

Definition by_priority (a b : dbcfg) : bool := (priority a <? priority b)%Z.

Fixpoint set_active_loop (l : list dbcfg) : M unit :=
  match l with
  | [] => modify (fun s => s_with_active s None true)
  | cfg :: l' =>
      b <- in_conns (name cfg) ;;
      if negb b then set_active_loop l' else
      ok <- is_database_available (name cfg) ;;
      if ok then modify (fun s => s_with_active s (Some (name cfg)) (fallback_to_file s))
      else set_active_loop l'
  end.

(** [set_active_database]: [sorted(..., key=priority)] is stable. *)
Definition set_active_database : M unit :=
  s <- get ;; set_active_loop (sort_by by_priority (databases (db_config s))).

(** [load_db_stats]: the saved file if there is one, else fresh entries. *)
Definition load_db_stats : M (list (string * dbstat)) :=
  s <- get ;;
  let w := world_ s in
  match w_stats_file w with
  | Some m => ret m
  | None =>
      ret (fold_left (fun m cfg =>
             assoc_set (name cfg) (mkdbstat "unknown" 0 0 (w_now w) 0 None) m)
             (databases (db_config s)) [])
  end.

(** [__init__], with the configuration already loaded. *)
Definition init_state (cfg : config) (w : world) : S :=
  mkS [] None false None cfg w [].

Definition construct (cfg : config) (w : world) : res unit * S :=
  (initialize_databases ;;;
   set_active_database ;;;
   m <- load_db_stats ;;
   modify (fun s => s_with_stats s m)) (init_state cfg w).

(* ------------------------------------------------------------------ *)
(** ** Writes *)

(** The heap of interaction dicts: a reference is an index. *)
Definition default_interaction : interaction :=
  mkinteraction "" "" "" "" "" None None false.

Definition deref (r : nat) : M interaction :=
  s <- get ;; ret (nth r (heap s) default_interaction).

Definition heap_set (r : nat) (x : interaction) : M unit :=
  modify (fun s => s_with_heap s (list_set r x (heap s))).

Definition alloc (x : interaction) : M nat :=
  s <- get ;;
  modify (fun s => s_with_heap s (heap s ++ [x])) ;;;
  ret (length (heap s)).

Definition log_write (e : wlog) : M unit :=
  modify (fun s => s_with_world s (w_log (world_ s) e)).

Definition with_oid (x : interaction) : interaction :=
  mkinteraction (user_id x) (message x) (response x) (timestamp x)
    (chat_type x) (feedback x) (group_id x) true.

Definition without_oid (x : interaction) : interaction :=
  mkinteraction (user_id x) (message x) (response x) (timestamp x)
    (chat_type x) (feedback x) (group_id x) false.

(** [_store_in_database].  pymongo's [insert_one] adds ["_id"] to the dict
    it is given before sending it; [json.dumps] of a dict holding it raises
    [TypeError]; the Redis key's 30-day expiry is not modelled. *)
Definition _store_in_database (db_name : string) (r : nat) : M bool :=
  c <- conn_of db_name ;;
  match c with
  | None => ret false
  | Some c =>
      try_except
        (if String.eqb (ctype c) "mongodb" then
           x <- deref r ;;
           (if oid x then ret tt else heap_set r (with_oid x)) ;;;
           log_write (WBackend db_name) ;;;
           s <- get ;;
           if w_write_fail (world_ s) db_name then raise ServerError else
           x <- deref r ;;
           modify (fun s => s_with_world s
             (w_with_mongo (world_ s) db_name (w_mongo (world_ s) db_name ++ [x]))) ;;;
           update_mongodb_stats db_name ;;;
           ret true
         else if String.eqb (ctype c) "redis" then
           s <- get ;;
           x <- deref r ;;
           let key := ("interaction:" ++ user_id x ++ ":" ++ w_key_ts (world_ s)
                      ++ ":" ++ w_rand (world_ s))%string in
           if oid x then raise TypeError else
           log_write (WBackend db_name) ;;;
           s <- get ;;
           if w_write_fail (world_ s) db_name then raise ServerError else
           modify (fun s => s_with_world s
             (w_with_redis (world_ s) db_name
                (assoc_set key x (w_redis (world_ s) db_name)))) ;;;
           update_redis_stats db_name ;;;
           ret true
         else ret false)
        (fun e => mark_error db_name e ;;; save_db_stats ;;; ret false)
  end.

Definition keep_last_100 (l : list interaction) : list interaction :=
  if Nat.ltb 100 (length l) then py_slice_from (-100) l else l.

(** [_store_in_file].  [os.makedirs] is outside any [try]: its error
    escapes.  The file is opened for writing before [json.dump] runs, so a
    dump that raises leaves it truncated; an [open] that fails leaves it as
    it was.  Both of these errors are caught. *)
Definition _store_in_file (r : nat) : M unit :=
  x <- deref r ;;
  let u := user_id x in
  s <- get ;;
  let w := world_ s in
  if negb (w_dir_ok w) then raise OSError else
  let old := match w_files w u with
             | Some (FValid l) => l
             | _ => []
             end in
  let l := keep_last_100 (old ++ [x]) in
  log_write (WFile u) ;;;
  if negb (w_io_ok w) then ret tt else
  modify (fun s => s_with_world s
    (w_with_file (world_ s) u
       (if forallb (fun y => negb (oid y)) l then FValid l else FCorrupt))).

(** The configured priority of the active database, or [float('inf')]. *)
Fixpoint priority_of (n : string) (l : list dbcfg) : prio :=
  match l with
  | [] => Inf
  | cfg :: l' => if String.eqb (name cfg) n then Fin (priority cfg) else priority_of n l'
  end.

Fixpoint failover_loop (cur : prio) (l : list dbcfg)
  (next_db : option string) (next_priority : prio) : M (option string) :=
  match l with
  | [] => ret next_db
  | cfg :: l' =>
      if prio_le (Fin (priority cfg)) cur then failover_loop cur l' next_db next_priority else
      b <- in_conns (name cfg) ;;
      if negb b then failover_loop cur l' next_db next_priority else
      ok <- is_database_available (name cfg) ;;
      if ok && prio_lt (Fin (priority cfg)) next_priority
      then failover_loop cur l' (Some (name cfg)) (Fin (priority cfg))
      else failover_loop cur l' next_db next_priority
  end.

(** [_failover_to_next_database]. *)
Definition _failover_to_next_database : M unit :=
  s <- get ;;
  let dbs := databases (db_config s) in
  let cur := match active_db s with
             | Some a => if name_truthy (Some a) then priority_of a dbs else Inf
             | None => Inf
             end in
  next <- failover_loop cur dbs None Inf ;;
  if name_truthy next then modify (fun s => s_with_active s next (fallback_to_file s))
  else modify (fun s => s_with_active s None true).

(** The dict literal of [store_interaction]. *)
Definition make_interaction (user_id : pyval) (message response : string)
  (now chat_type : string) (group_id : pyval) (feedback : option string)
  : interaction :=
  mkinteraction (py_str user_id) message response now chat_type feedback
    (if py_truthy group_id then Some (py_str group_id) else None) false.

(** [if self.active_db: self._store_in_database(self.active_db, interaction)]. *)
Definition retry_on_active (r : nat) : M unit :=
  s <- get ;;
  match active_db s with
  | Some b => if name_truthy (Some b) then (_ <- _store_in_database b r ;; ret tt)
              else ret tt
  | None => ret tt
  end.

(** [store_interaction]; [chat_type] defaults to ["private"] and the
    other two optional arguments to [None]. *)
Definition store_interaction (user_id : pyval) (message response : string)
  (chat_type : string) (group_id : pyval) (feedback : option string) : M unit :=
  s <- get ;;
  let cfg := db_config s in
  if negb (learning_enabled cfg) then ret tt else
  r <- alloc (make_interaction user_id message response (w_now (world_ s))
                chat_type group_id feedback) ;;
  s <- get ;;
  (match active_db s with
   | Some a =>
       if name_truthy (Some a) && negb (fallback_to_file s) then
         try_except
           (success <- _store_in_database a r ;;
            if negb success && auto_failover cfg then
              _failover_to_next_database ;;; retry_on_active r
            else ret tt)
           (fun e => if auto_failover cfg then
                       _failover_to_next_database ;;; retry_on_active r
                     else ret tt)
       else ret tt
   | None => ret tt
   end) ;;;
  s <- get ;;
  if fallback_to_file s || negb (name_truthy (active_db s)) then _store_in_file r
  else ret tt.

(* ------------------------------------------------------------------ *)
(** ** Reads *)

(** Python's [<] on strings (code points; ASCII here). *)
Definition ts_after (x y : interaction) : bool := String.ltb (timestamp y) (timestamp x).

(** [.sort(key=lambda x: x.get("timestamp", ""), reverse=True)]; Mongo's
    [.sort("timestamp", -1)] is modelled by the same stable sort. *)
Definition sort_desc (l : list interaction) : list interaction := sort_by ts_after l.

(** pymongo's [.limit(n)]: [0] is no limit, a negative [n] is [-n]. *)
Definition mongo_limit (n : Z) (l : list interaction) : list interaction :=
  if (n =? 0)%Z then l else firstn (Z.to_nat (Z.abs n)) l.

(** The keys matching the glob [interaction:{user_id}:*] (user ids without
    glob metacharacters). *)
Definition redis_keys (u : string) (kv : list (string * interaction)) : list string :=
  filter (fun k => String.prefix ("interaction:" ++ u ++ ":")%string k) (map fst kv).

(** The body of the [try] for one backend of [get_user_interactions]: the
    records it appends to the shared list [interactions], and the exception
    it raises after them, if any.  A failing read raises after
    [w_read_after] documents of the cursor, or after [w_read_after] of the
    keys (a failing [keys] call is a failure after none). *)
Definition read_backend (u : string) (limit : Z) (db_name : string) (c : conn)
  : M (list interaction * option exn) :=
  s <- get ;;
  let w := world_ s in
  if String.eqb (ctype c) "mongodb" then
    let docs := map without_oid
                  (mongo_limit limit
                     (sort_desc (filter (fun x => String.eqb (user_id x) u) (w_mongo w db_name)))) in
    if w_read_fail w db_name then ret (firstn (w_read_after w db_name) docs, Some ServerError)
    else ret (docs, None)
  else if String.eqb (ctype c) "redis" then
    let keys := sort_by (fun a b => String.ltb b a) (redis_keys u (w_redis w db_name)) in
    let get_all ks := flat_map (fun k => match lookup k (w_redis w db_name) with
                                         | Some x => [x]
                                         | None => []
                                         end) ks in
    if w_read_fail w db_name
    then ret (get_all (firstn (w_read_after w db_name) (py_slice_to limit keys)), Some ServerError)
    else ret (get_all (py_slice_to limit keys), None)
  else ret ([], None).

(** The loop over [self.db_connections]: the [except] logs the error and
    goes on; the records appended before it stay in the list. *)
Fixpoint read_loop (u : string) (limit : Z) (cs : list (string * conn))
  (acc : list interaction) : M (list interaction) :=
  match cs with
  | [] => ret acc
  | (n, c) :: cs' =>
      p <- read_backend u limit n c ;;
      read_loop u limit cs' (acc ++ fst p)
  end.

(** [_get_interactions_from_file]. *)
Definition _get_interactions_from_file (user_id : pyval) (limit : Z)
  : M (list interaction) :=
  let u := py_str user_id in
  s <- get ;;
  match w_files (world_ s) u with
  | Some (FValid l) => ret (py_slice_from (- limit) l)
  | _ => ret []
  end.

(** [get_user_interactions]. *)
Definition get_user_interactions (user_id : pyval) (limit : Z)
  : M (list interaction) :=
  let u := py_str user_id in
  s <- get ;;
  acc <- read_loop u limit (db_connections s) [] ;;
  acc <- (if Nat.eqb (length acc) 0 || (Z.of_nat (length acc) <? limit)%Z
          then f <- _get_interactions_from_file (PStr u) limit ;; ret (acc ++ f)
          else ret acc) ;;
  ret (py_slice_to limit (sort_desc acc)).

(* ------------------------------------------------------------------ *)
(** ** Statistics and the admin switch *)

Fixpoint stats_loop (cs : list (string * conn)) : M unit :=
  match cs with
  | [] => ret tt
  | (n, c) :: cs' =>
      (if String.eqb (ctype c) "mongodb" then update_mongodb_stats n
       else if String.eqb (ctype c) "redis" then update_redis_stats n
       else ret tt) ;;;
      stats_loop cs'
  end.

(** [get_database_stats]. *)
Definition get_database_stats : M (list (string * dbstat)) :=
  s <- get ;;
  stats_loop (db_connections s) ;;;
  s <- get ;;
  match db_stats s with
  | Some m => ret m
  | None => raise AttributeError
  end.

Inductive switch_reply := Switched | UnknownDatabase | NotConnected.

(** [db_switch_handler] of src/bot.py, after the admin check and the
    argument parsing. *)
Definition db_switch (db_name : string) : M switch_reply :=
  stats <- get_database_stats ;;
  if negb (mem db_name stats) then ret UnknownDatabase else
  s <- get ;;
  if mem db_name (db_connections s)
  then modify (fun s => s_with_active s (Some db_name) false) ;;; ret Switched
  else ret NotConnected.

(* ------------------------------------------------------------------ *)
(** ** Concrete configurations *)

(** A world where every server answers and nothing is stored yet. *)
Definition world_up (write_fail : string -> bool) : world :=
  mkworld (fun _ => true) write_fail (fun _ => false) (fun _ => 0%nat) (fun _ => false)
    (fun _ => 0%Z) (fun _ => []) (fun _ => []) (fun _ => None) true true None []
    "2024-04-01T19:30:05.000001" "20240401193005" "042137".

Definition mongo_cfg (n : string) (p : Z) : dbcfg :=
  mkdbcfg n "mongodb" ("mongodb://" ++ n ++ ".example:27017/iplbot")%string p
    "user_interactions" (Some (500 # 1)).

(** A router whose backends are all connected, healthy and empty; the
    state [__init__] is written to produce. *)
Definition stat_connected : dbstat := mkdbstat "connected" 0 0 "2024-04-01T19:00:00" 0 None.

Definition running (cfg : config) (w : world) (active : option string) (fb : bool) : S :=
  mkS (map (fun c => (name c, mkconn (dtype c) c)) (databases cfg)) active fb
    (Some (map (fun c => (name c, stat_connected)) (databases cfg))) cfg w [].

Definition cfg_AB : config := mkconfig [mongo_cfg "A" 1; mongo_cfg "B" 2] true true.

Definition fails_A (n : string) : bool := String.eqb n "A".

Definition record_42 : M unit :=
  store_interaction (PInt 42) "Who won the 2023 final?" "CSK" "private" PNone None.

(* ------------------------------------------------------------------ *)
(** ** Properties used in the statements *)

(** [using_file_fallback == true] iff [active_backend == null]. *)
Definition fallback_iff_no_active (s : S) : Prop :=
  fallback_to_file s = true <-> active_db s = None.

(** The states a constructed manager can be in: construction returned,
    then any sequence of the public operations (each may raise, the object
    stays), of the internal failover, and of changes of the outside world. *)
Inductive reachable : S -> Prop :=
| reach_init cfg w s :
    construct cfg w = (Ok tt, s) -> reachable s
| reach_store s u m r ct g f o s' :
    reachable s -> store_interaction u m r ct g f s = (o, s') -> reachable s'
| reach_query s u l o s' :
    reachable s -> get_user_interactions u l s = (o, s') -> reachable s'
| reach_stats s o s' :
    reachable s -> get_database_stats s = (o, s') -> reachable s'
| reach_switch s n o s' :
    reachable s -> db_switch n s = (o, s') -> reachable s'
| reach_failover s o s' :
    reachable s -> _failover_to_next_database s = (o, s') -> reachable s'
| reach_world s w :
    reachable s -> reachable (s_with_world s w).

(** No database is connected and the router writes to the file. *)
Definition file_mode (s : S) : Prop :=
  db_connections s = [] /\ active_db s = None /\ fallback_to_file s = true.

(** Every connected database has an entry in [self.db_stats]. *)
Definition stats_wf (s : S) : Prop :=
  exists m, db_stats s = Some m /\
    forall n, mem n (db_connections s) = true -> mem n m = true.

(** What [is_database_available] answers, read off the state. *)
Definition avail (s : S) (n : string) : bool :=
  match lookup n (db_connections s), db_stats s with
  | Some c, Some m =>
      match lookup n m with
      | Some st => String.eqb (status st) "connected" &&
                   match max_size_mb (cconfig c) with
                   | None => true
                   | Some mx => qltb (size_mb st) mx
                   end
      | None => false
      end
  | _, _ => false
  end.

(** A database the failover may move to when [a] failed: configured with a
    priority value strictly greater than [a]'s, connected, available, and
    not [a] itself (which the failure has just marked as in error). *)
Definition fo_candidate (s : S) (a : string) (cfg : dbcfg) : Prop :=
  In cfg (databases (db_config s)) /\
  prio_lt (priority_of a (databases (db_config s))) (Fin (priority cfg)) = true /\
  mem (name cfg) (db_connections s) = true /\
  name cfg <> a /\
  avail s (name cfg) = true.

(** The records in a user's file, as [_store_in_file] reads them. *)
Definition file_records (w : world) (u : string) : list interaction :=
  match w_files w u with Some (FValid l) => l | _ => [] end.

(** The [k] most recent entries of [l], in order. *)
Definition lastn {A} (k : nat) (l : list A) : list A := skipn (length l - k) l.

(** Appending records one after the other through the file fallback. *)
Fixpoint append_all (xs : list interaction) : M unit :=
  match xs with
  | [] => ret tt
  | x :: xs' => r <- alloc x ;; _store_in_file r ;;; append_all xs'
  end.

Definition old_42 : interaction :=
  mkinteraction "42" "Who is the orange cap?" "Shubman Gill" "2024-03-28T21:05:00"
    "private" None None false.

Definition new_42 : interaction :=
  mkinteraction "42" "Score of MI vs RR?" "RR won by 6 wickets" "2024-04-01T19:00:00"
    "private" None None false.

(** Backend [A] holds an older record of user 42, the file a newer one. *)
Definition world_split : world :=
  w_with_file (w_with_mongo (world_up (fun _ => false)) "A" [old_42]) "42" (FValid [new_42]).

(** [A] is still connected but in error after an earlier write failure, so
    the router writes to the file; [A] holds an older record of user 42. *)
Definition stat_error : dbstat := mkdbstat "error" 0 1 "2024-04-01T19:10:00" 1 (Some "server error").

Definition file_mode_with_A : S :=
  mkS [("A", mkconn "mongodb" (mongo_cfg "A" 1))] None true
    (Some [("A", stat_error)]) (mkconfig [mongo_cfg "A" 1] true true)
    (w_with_mongo (world_up (fun _ => false)) "A" [old_42]) [].


(** The default configuration's primary MongoDB, unreachable. *)
Definition default_primary : dbcfg :=
  mkdbcfg "primary_mongodb" "mongodb" "mongodb://localhost:27017/iplbot" 1
    "user_interactions" (Some (500 # 1)).

Definition world_down : world :=
  mkworld (fun _ => false) (fun _ => false) (fun _ => false) (fun _ => 0%nat) (fun _ => false)
    (fun _ => 0%Z) (fun _ => []) (fun _ => []) (fun _ => None) true true None []
    "2024-04-01T19:30:05.000001" "20240401193005" "042137".

(** A world where every server answers, and where the user files cannot be
    opened for writing. *)
Definition world_no_write : world :=
  mkworld (fun _ => true) (fun _ => false) (fun _ => false) (fun _ => 0%nat) (fun _ => false)
    (fun _ => 0%Z) (fun _ => []) (fun _ => []) (fun _ => None) false true None []
    "2024-04-01T19:30:05.000001" "20240401193005" "042137".

(** The manager built from a configuration without databases. *)
Definition no_db_cfg : config := mkconfig [] true true.

(** Computations that preserve [fallback_iff_no_active]. *)
Definition keeps_inv {A} (m : M A) : Prop :=
  forall s, fallback_iff_no_active s -> fallback_iff_no_active (snd (m s)).

(** The records carry no ObjectId, so [json.dump] can write them. *)
Definition no_oid (l : list interaction) : bool := forallb (fun y => negb (oid y)) l.

(** What the backend [n] contributes to a query: the records it appended,
    also when its read raised afterwards. *)
Definition part_of (u : string) (lim : Z) (s : S) (nc : string * conn)
  : list interaction :=
  match fst (read_backend u lim (fst nc) (snd nc) s) with
  | Ok p => fst p
  | Exn _ => []
  end.

(** [x] may come before [y] in a list sorted by timestamp, newest first. *)
Definition newer_first (x y : interaction) : Prop := ts_after y x = false.

(** The writes sent so far, in order. *)
Definition writes (s : S) : list wlog := w_writes (world_ s).

(** Computations that leave the view [pi] of the state unchanged. *)
Definition keeps_proj {T A} (pi : S -> T) (m : M A) : Prop :=
  forall s, pi (snd (m s)) = pi s.

(** Computations that send the write [e] at most once, and nothing else. *)
Definition writes_grow {A} (e : wlog) (m : M A) : Prop :=
  forall s, writes (snd (m s)) = writes s \/ writes (snd (m s)) = writes s ++ [e].

(** [self.db_stats] exists and holds an entry for [n]. *)
Definition has_stat (n : string) (s : S) : Prop :=
  exists m, db_stats s = Some m /\ mem n m = true.

(** Computations that preserve the property [P] of the state. *)
Definition preserves {A} (P : S -> Prop) (m : M A) : Prop :=
  forall s, P s -> P (snd (m s)).

(** A decision procedure for [stats_wf]. *)
Definition stats_wfb (s : S) : bool :=
  match db_stats s with
  | Some m => forallb (fun p => mem (fst p) m) (db_connections s)
  | None => false
  end.

(** A record of user 42, appended many times in the file tests. *)
Definition ball : interaction :=
  mkinteraction "42" "Next ball?" "Dot ball" "2024-04-01T19:30:05" "private" None None false.

(* ------------------------------------------------------------------ *)
(** ** Group queries *)

(** [interaction.get("group_id") == group_id]; the Mongo filter
    [{"group_id": group_id}] matches the same documents. *)
Definition in_group (g : string) (x : interaction) : bool :=
  match group_id x with Some g' => String.eqb g' g | None => false end.

(** One backend's share of [get_group_interactions]: the records appended
    to the shared list and the exception raised after them, if any.  Redis'
    [SCAN] over [interaction:*] is taken to visit each key once, in store
    order; a failing read raises after [w_read_after] documents, or after
    [w_read_after] of the keys (a failing [scan] call is a failure after the
    keys of the earlier batches). *)
Definition read_group_backend (g : string) (limit : Z) (db_name : string) (c : conn)
  : M (list interaction * option exn) :=
  s <- get ;;
  let w := world_ s in
  if String.eqb (ctype c) "mongodb" then
    let docs := map without_oid
                  (mongo_limit limit (sort_desc (filter (in_group g) (w_mongo w db_name)))) in
    if w_read_fail w db_name then ret (firstn (w_read_after w db_name) docs, Some ServerError)
    else ret (docs, None)
  else if String.eqb (ctype c) "redis" then
    let kvs := filter (fun kv => String.prefix "interaction:" (fst kv)) (w_redis w db_name) in
    if w_read_fail w db_name
    then ret (filter (in_group g) (map snd (firstn (w_read_after w db_name) kvs)), Some ServerError)
    else ret (filter (in_group g) (map snd kvs), None)
  else ret ([], None).

Fixpoint read_group_loop (g : string) (limit : Z) (cs : list (string * conn))
  (acc : list interaction) : M (list interaction) :=
  match cs with
  | [] => ret acc
  | (n, c) :: cs' =>
      p <- read_group_backend g limit n c ;;
      read_group_loop g limit cs' (acc ++ fst p)
  end.

(** [get_group_interactions]; [limit] defaults to 50. *)
Definition get_group_interactions (group_id : pyval) (limit : Z)
  : M (list interaction) :=
  let g := py_str group_id in
  s <- get ;;
  acc <- read_group_loop g limit (db_connections s) [] ;;
  ret (py_slice_to limit (sort_desc acc)).

(** What the backend [n] contributes to a group query. *)
Definition group_part (g : string) (lim : Z) (s : S) (nc : string * conn)
  : list interaction :=
  match fst (read_group_backend g lim (fst nc) (snd nc) s) with
  | Ok p => fst p
  | Exn _ => []
  end.

(* ------------------------------------------------------------------ *)
(** ** The active database and the language counts *)

(** [get_active_database]. *)
Definition get_active_database : M (option string) :=
  s <- get ;;
  if fallback_to_file s then ret (Some "file_storage") else ret (active_db s).

(** The dict [{'english': 0, 'telugu': 0, 'unknown': 0}]. *)
Definition lang_init : list (string * Z) :=
  [("english", 0%Z); ("telugu", 0%Z); ("unknown", 0%Z)].

(** [language_stats[language] = language_stats.get(language, 0) + 1]. *)
Definition lang_bump (m : list (string * Z)) (l : string) : list (string * Z) :=
  assoc_set l (match lookup l m with Some k => k | None => 0 end + 1)%Z m.

(** The result of the [$group] stage on ["$language"]: the dicts
    [store_interaction] builds carry no ["language"] key, so all documents
    fall in the one group [_id: None], which exists once there is one. *)
Definition mongo_language_groups (docs : list interaction) : list (option string * Z) :=
  if Nat.eqb (length docs) 0 then [] else [(None, Z.of_nat (length docs))].

(** [result['_id'] if result['_id'] else 'unknown']. *)
Definition group_language (o : option string) : string :=
  match o with Some l => if String.eqb l "" then "unknown" else l | None => "unknown" end.

(** [interaction.get('language', 'unknown')] of a file entry. *)
Definition entry_language (o : option string) : string :=
  match o with Some l => l | None => "unknown" end.

(** The content of [data/interactions.json], which no code of the
    repository writes: absent, unreadable, or an array whose entries are
    given by their ["language"] value ([None] when the key is absent). *)
Inductive ijson := IJAbsent | IJBad | IJValid (l : list (option string)).

(** [get_language_stats].  The connection named ['mongodb'] is used only
    when it is a MongoDB one (a Redis entry has no ["collection"]: the
    [KeyError] is caught); the one named ['redis'] only when it is a Redis
    one ([MongoClient.keys] is a [Database], calling it raises).  The
    values stored in Redis carry no ["language"] either. *)
Definition get_language_stats (ij : ijson) : M (list (string * Z)) :=
  s <- get ;;
  let w := world_ s in
  let cs := db_connections s in
  let language_stats := lang_init in
  let from_mongo :=
    match lookup "mongodb" cs with
    | Some c =>
        if String.eqb (ctype c) "mongodb" && negb (w_read_fail w "mongodb")
        then Some (fold_left (fun m r => assoc_set (group_language (fst r)) (snd r) m)
                     (mongo_language_groups (w_mongo w "mongodb")) language_stats)
        else None
    | None => None
    end in
  let from_redis :=
    match lookup "redis" cs with
    | Some c =>
        if String.eqb (ctype c) "redis" && negb (w_read_fail w "redis")
        then Some (fold_left (fun m _ => lang_bump m "unknown")
                     (filter (String.prefix "interaction:") (map fst (w_redis w "redis")))
                     language_stats)
        else None
    | None => None
    end in
  match from_mongo with
  | Some m => ret m
  | None =>
      match from_redis with
      | Some m => ret m
      | None =>
          if fallback_to_file s then
            match ij with
            | IJValid l => ret (fold_left lang_bump (map entry_language l) language_stats)
            | _ => ret language_stats
            end
          else ret language_stats
      end
  end.

(** The sum of the counts, [sum(language_stats.values())]. *)
Definition lang_total (m : list (string * Z)) : Z := fold_right (fun p t => snd p + t)%Z 0%Z m.

(* ------------------------------------------------------------------ *)
(** ** Loading the configuration *)





(** The keys of [self.db_stats], in order. *)
Definition stat_keys (s : S) : option (list string) := option_map (map fst) (db_stats s).

(** [language_stats.get(l, 0)]. *)
Definition lang_count (m : list (string * Z)) (l : string) : Z :=
  match lookup l m with Some k => k | None => 0%Z end.

(* ------------------------------------------------------------------ *)
(** ** [AdminManager] (src/admin_manager.py) *)

(** [sub in s] on strings. *)
Fixpoint str_contains (sub s : string) : bool :=
  String.prefix sub s ||
  match s with
  | EmptyString => false
  | String _ s' => str_contains sub s'
  end.

(** [del d[k]]. *)
Fixpoint assoc_del {A} (k : string) (l : list (string * A)) : list (string * A) :=
  match l with
  | [] => []
  | (k', v) :: l' => if String.eqb k k' then assoc_del k l' else (k', v) :: assoc_del k l'
  end.

(** [l.remove(x)]: the first occurrence. *)
Fixpoint remove_first (x : string) (l : list string) : list string :=
  match l with
  | [] => []
  | y :: l' => if String.eqb x y then l' else y :: remove_first x l'
  end.

(** A JSON file of the data directory: absent, rejected by [json.load], or
    holding a value of the expected shape. *)
Inductive jfile (A : Type) := JAbsent | JBad | JValid (a : A).
Arguments JAbsent {A}.
Arguments JBad {A}.
Arguments JValid {A} a.

(** One value of [self.admin_data]; a key missing from an entry loaded
    from [admins.json] is [None]. *)
Record admin_entry := mkadmin {
  added_at : option string;
  permissions : option (list string);
  added_by : option string
}.

(** One entry of [admin_logs.json]. *)
Record log_entry := mklog { log_admin_id : string; log_action : string; log_timestamp : string }.

(** The manager's attributes, its three files, whether they can be
    written, and [datetime.now().isoformat()]. *)
Record AS := mkAS {
  admin_data : list (string * admin_entry);
  bot_config : list (string * string);
  admins_file : jfile (list (string * admin_entry));
  bot_config_file : jfile (list (string * string));
  log_file : jfile (list log_entry);
  a_io_ok : bool;
  a_now : string
}.

Definition as_with_data (st : AS) d : AS :=
  mkAS d (bot_config st) (admins_file st) (bot_config_file st) (log_file st)
    (a_io_ok st) (a_now st).
Definition as_with_config (st : AS) c : AS :=
  mkAS (admin_data st) c (admins_file st) (bot_config_file st) (log_file st)
    (a_io_ok st) (a_now st).
Definition as_with_admins_file (st : AS) f : AS :=
  mkAS (admin_data st) (bot_config st) f (bot_config_file st) (log_file st)
    (a_io_ok st) (a_now st).
Definition as_with_config_file (st : AS) f : AS :=
  mkAS (admin_data st) (bot_config st) (admins_file st) f (log_file st)
    (a_io_ok st) (a_now st).
Definition as_with_log_file (st : AS) f : AS :=
  mkAS (admin_data st) (bot_config st) (admins_file st) (bot_config_file st) f
    (a_io_ok st) (a_now st).

Definition entry_permissions (e : admin_entry) : list string :=
  match permissions e with Some p => p | None => [] end.
Definition entry_added_by (e : admin_entry) : string :=
  match added_by e with Some b => b | None => "" end.

(** [load_admin_data]. *)
Definition load_admin_data (st : AS) : list (string * admin_entry) :=
  match admins_file st with JValid d => d | _ => [] end.

(** [save_admin_data]: a failing [open] is caught. *)
Definition save_admin_data (st : AS) : AS :=
  if a_io_ok st then as_with_admins_file st (JValid (admin_data st)) else st.

(** [save_bot_config]. *)
Definition save_bot_config (st : AS) : AS :=
  if a_io_ok st then as_with_config_file st (JValid (bot_config st)) else st.

(** [load_bot_config]: the file's dict, or the default, which is written. *)
Definition default_bot_config (now : string) : list (string * string) :=
  [("supported_team", "neutral"); ("response_style", "balanced");
   ("prediction_confidence", "medium"); ("learning_rate", "normal");
   ("last_updated", now); ("updated_by", "system")].

Definition load_bot_config (st : AS) : list (string * string) * AS :=
  match bot_config_file st with
  | JValid c => (c, st)
  | _ => let d := default_bot_config (a_now st) in
         (d, if a_io_ok st then as_with_config_file st (JValid d) else st)
  end.

(** [AdminManager(admin_ids)] on a state giving its files. *)
Definition admin_init (admin_ids : list pyval) (st : AS) : AS :=
  let st := as_with_data st (load_admin_data st) in
  let '(c, st) := load_bot_config st in
  let st := as_with_config st c in
  let st := fold_left (fun st a =>
              if mem (py_str a) (admin_data st) then st
              else as_with_data st (assoc_set (py_str a)
                     (mkadmin (Some (a_now st)) (Some ["full"]) (Some "system"))
                     (admin_data st)))
              admin_ids st in
  save_admin_data st.

(** [is_admin]. *)
Definition is_admin (user_id : pyval) (st : AS) : bool := mem (py_str user_id) (admin_data st).

(** [add_admin]; [permissions or [...]] also replaces an empty list. *)
Definition add_admin (user_id added_by : pyval) (perms : option (list string)) (st : AS)
  : (bool * string) * AS :=
  let u := py_str user_id in
  if mem u (admin_data st) then ((false, "User is already an admin."), st) else
  let e := mkadmin (Some (a_now st))
             (Some (match perms with
                    | Some ((_ :: _) as p) => p
                    | _ => ["broadcast"; "stats"; "block"]
                    end))
             (Some (py_str added_by)) in
  ((true, ("User " ++ u ++ " has been added as an admin.")%string),
   save_admin_data (as_with_data st (assoc_set u e (admin_data st)))).

(** [remove_admin]. *)
Definition remove_admin (user_id removed_by : pyval) (st : AS) : (bool * string) * AS :=
  let u := py_str user_id in
  match lookup u (admin_data st) with
  | None => ((false, "User is not an admin."), st)
  | Some e =>
      if str_contains "system" (entry_added_by e)
      then ((false, "Cannot remove the original admin."), st)
      else ((true, ("User " ++ u ++ " has been removed from admins.")%string),
            save_admin_data (as_with_data st (assoc_del u (admin_data st))))
  end.

(** [has_permission]. *)
Definition has_permission (user_id : pyval) (permission : string) (st : AS) : bool :=
  let u := py_str user_id in
  match lookup u (admin_data st) with
  | None => false
  | Some e => existsb (String.eqb "full") (entry_permissions e) ||
              existsb (String.eqb permission) (entry_permissions e)
  end.

(** [log_admin_action]: a log file [json.load] rejects counts as empty. *)
Definition log_admin_action (admin_id : pyval) (action : string) (st : AS) : AS :=
  let logs := match log_file st with JValid l => l | _ => [] end in
  let logs := logs ++ [mklog (py_str admin_id) action (a_now st)] in
  let logs := if Nat.ltb 1000 (length logs) then py_slice_from (-1000) logs else logs in
  if a_io_ok st then as_with_log_file st (JValid logs) else st.

(** [get_admin_logs]; [limit] defaults to 50. *)
Definition get_admin_logs (limit : Z) (st : AS) : list log_entry :=
  match log_file st with
  | JValid l => py_slice_from (- limit) l
  | _ => []
  end.

(** [grant_permission]. *)
Definition grant_permission (user_id : pyval) (permission : string) (granted_by : pyval)
  (st : AS) : (bool * string) * AS :=
  let u := py_str user_id in
  match lookup u (admin_data st) with
  | None => ((false, "User is not an admin."), st)
  | Some e =>
      let ps := entry_permissions e in
      if existsb (String.eqb permission) ps
      then ((false, ("Admin already has the '" ++ permission ++ "' permission.")%string), st) else
      let e' := mkadmin (added_at e) (Some (ps ++ [permission])) (added_by e) in
      let st := save_admin_data (as_with_data st (assoc_set u e' (admin_data st))) in
      let st := log_admin_action granted_by
                  ("Granted '" ++ permission ++ "' permission to " ++ u)%string st in
      ((true, ("Permission '" ++ permission ++ "' granted to admin " ++ u ++ ".")%string), st)
  end.

(** [revoke_permission]. *)
Definition revoke_permission (user_id : pyval) (permission : string) (revoked_by : pyval)
  (st : AS) : (bool * string) * AS :=
  let u := py_str user_id in
  match lookup u (admin_data st) with
  | None => ((false, "User is not an admin."), st)
  | Some e =>
      let ps := entry_permissions e in
      if negb (existsb (String.eqb permission) ps)
      then ((false, ("Admin does not have the '" ++ permission ++ "' permission.")%string), st) else
      if String.eqb permission "full" && str_contains "system" (entry_added_by e)
      then ((false, "Cannot revoke 'full' permission from the original admin."), st) else
      let e' := mkadmin (added_at e) (Some (remove_first permission ps)) (added_by e) in
      let st := save_admin_data (as_with_data st (assoc_set u e' (admin_data st))) in
      let st := log_admin_action revoked_by
                  ("Revoked '" ++ permission ++ "' permission from " ++ u)%string st in
      ((true, ("Permission '" ++ permission ++ "' revoked from admin " ++ u ++ ".")%string), st)
  end.

(** The values [update_bot_config] accepts for a key it validates. *)
Definition valid_teams : list string :=
  ["neutral"; "Mumbai Indians"; "Chennai Super Kings"; "Royal Challengers Bangalore";
   "Kolkata Knight Riders"; "Delhi Capitals"; "Punjab Kings"; "Rajasthan Royals";
   "Sunrisers Hyderabad"; "Gujarat Titans"; "Lucknow Super Giants"].

Definition valid_values (k : string) : option (string * list string) :=
  if String.eqb k "supported_team" then Some ("Invalid team name", valid_teams)
  else if String.eqb k "response_style"
  then Some ("Invalid style", ["balanced"; "enthusiastic"; "professional"])
  else if String.eqb k "prediction_confidence"
  then Some ("Invalid level", ["low"; "medium"; "high"])
  else if String.eqb k "learning_rate"
  then Some ("Invalid rate", ["slow"; "normal"; "fast"])
  else None.

(** The message [update_bot_config] answers for a value it rejects. *)
Definition bot_config_error (config_key config_value : string) : option string :=
  match valid_values config_key with
  | Some (msg, vs) =>
      if existsb (String.eqb config_value) vs then None
      else Some (msg ++ ". Choose from: " ++ String.concat ", " vs)%string
  | None => None
  end.

(** [update_bot_config]. *)
Definition update_bot_config (config_key config_value : string) (updated_by : pyval)
  (st : AS) : (bool * string) * AS :=
  if negb (mem config_key (bot_config st))
  then ((false, ("Invalid configuration key: " ++ config_key)%string), st) else
  match bot_config_error config_key config_value with
  | Some m => ((false, m), st)
  | None =>
      let c := assoc_set config_key config_value (bot_config st) in
      let c := assoc_set "last_updated" (a_now st) c in
      let c := assoc_set "updated_by" (py_str updated_by) c in
      let st := save_bot_config (as_with_config st c) in
      let st := log_admin_action updated_by
                  ("Updated bot configuration: " ++ config_key ++ " = " ++ config_value)%string st in
      ((true, ("Bot configuration updated: " ++ config_key ++ " = " ++ config_value)%string), st)
  end.

(** A newline. *)
Definition nl : string := String (Ascii.ascii_of_nat 10) EmptyString.

(** [format_bot_config]: [None] when a key it indexes is missing from
    [self.bot_config] (the [KeyError] of [config[...]]); [[:10]] of an
    ASCII string is its first ten characters. *)
Definition format_bot_config (st : AS) : option string :=
  let config := bot_config st in
  match lookup "supported_team" config, lookup "response_style" config,
        lookup "prediction_confidence" config, lookup "learning_rate" config,
        lookup "last_updated" config, lookup "updated_by" config with
  | Some team, Some style, Some conf, Some rate, Some upd_at, Some upd_by =>
      Some ("‚öôÔ∏è **Bot Configuration**" ++ nl ++ nl ++
            "‚Ä¢ Supported Team: " ++ team ++ nl ++
            "‚Ä¢ Response Style: " ++ style ++ nl ++
            "‚Ä¢ Prediction Confidence: " ++ conf ++ nl ++
            "‚Ä¢ Learning Rate: " ++ rate ++ nl ++ nl ++
            "Last updated: " ++ substring 0 10 upd_at ++ " by " ++ upd_by)%string
  | _, _, _, _, _, _ => None
  end.

(** The outcomes of [config_command] in src/bot.py for [/config key value]:
    a reply ["✅ Configuration updated successfully!\n\n" + info], a reply
    for a [ValueError], or an exception that escapes the handler, so that
    no reply is sent. *)
Inductive config_reply :=
| ConfigUpdated (info : string)
| ConfigValueError (msg : string)
| ConfigRaised (e : exn).

(** [/config key value], after the admin check and the split ([key] is
    already lowercased): the result of [update_bot_config] is dropped
    ([update_bot_config] raises no [ValueError]), then [format_bot_config]
    runs, and its [KeyError] is not caught by [except ValueError]. *)
Definition config_command_set (config_key config_value : string) (user_id : pyval)
  (st : AS) : config_reply * AS :=
  let '(_, st') := update_bot_config config_key config_value user_id st in
  match format_bot_config st' with
  | Some info => (ConfigUpdated info, st')
  | None => (ConfigRaised KeyError, st')
  end.

(** The admin operations, as a later caller may issue them. *)
Inductive admin_op :=
| AddAdmin (u b : pyval) (p : option (list string))
| RemoveAdmin (u b : pyval)
| GrantPermission (u : pyval) (p : string) (b : pyval)
| RevokePermission (u : pyval) (p : string) (b : pyval)
| UpdateBotConfig (k v : string) (b : pyval)
| LogAdminAction (a : pyval) (action : string).

Definition run_admin_op (o : admin_op) (st : AS) : AS :=
  match o with
  | AddAdmin u b p => snd (add_admin u b p st)
  | RemoveAdmin u b => snd (remove_admin u b st)
  | GrantPermission u p b => snd (grant_permission u p b st)
  | RevokePermission u p b => snd (revoke_permission u p b st)
  | UpdateBotConfig k v b => snd (update_bot_config k v b st)
  | LogAdminAction a action => log_admin_action a action st
  end.

Definition run_admin_ops (ops : list admin_op) (st : AS) : AS :=
  fold_left (fun st o => run_admin_op o st) ops st.

(** An admin [AdminManager] itself added: [added_by] contains ["system"]
    and the permissions hold ["full"]. *)
Definition protected_admin (u : string) (st : AS) : Prop :=
  exists e, lookup u (admin_data st) = Some e /\
    str_contains "system" (entry_added_by e) = true /\ In "full" (entry_permissions e).

(** Every validated key of the bot configuration that is present holds an
    accepted value. *)
Definition bot_config_ok (c : list (string * string)) : bool :=
  forallb (fun k => match valid_values k, lookup k c with
                    | Some (_, vs), Some v => existsb (String.eqb v) vs
                    | _, _ => true
                    end)
    ["supported_team"; "response_style"; "prediction_confidence"; "learning_rate"].

(** The entries [log_admin_action] appends for these actions, in order. *)
Definition log_entries (st : AS) (acts : list (pyval * string)) : list log_entry :=
  map (fun p => mklog (py_str (fst p)) (snd p) (a_now st)) acts.

Definition log_all (acts : list (pyval * string)) (st : AS) : AS :=
  fold_left (fun st p => log_admin_action (fst p) (snd p) st) acts st.

(** An empty data directory. *)
Definition admin_st0 : AS := mkAS [] [] JAbsent JAbsent JAbsent true "2026-01-01T00:00:00".

(** A data directory whose [bot_config.json] holds only
    [{"supported_team": "neutral"}]. *)
Definition admin_st_team_only : AS :=
  mkAS [] [] JAbsent (JValid [("supported_team", "neutral")]) JAbsent true "2026-01-01T00:00:00".

(* ================================================================== *)
(** * Frame lemmas *)

(** The part of the state the router's selection logic owns. *)
Definition af (s : S) : option string * bool := (active_db s, fallback_to_file s).

Definition keeps_af {A} (m : M A) : Prop := forall s, af (snd (m s)) = af s.

(** Computations that leave the whole state unchanged. *)
Definition readonly {A} (m : M A) : Prop := forall s, snd (m s) = s.

Section Frames.
Context {A B : Type}.

Lemma keeps_ret (a : A) : keeps_af (ret a).
Proof. intro; reflexivity. Qed.

Lemma keeps_raise e : keeps_af (@raise A e).
Proof. intro; reflexivity. Qed.

Lemma keeps_modify (f : S -> S) : (forall s, af (f s) = af s) -> keeps_af (modify f).
Proof. intros H s; apply H. Qed.

Lemma keeps_bind (m : M A) (k : A -> M B) :
  keeps_af m -> (forall a, keeps_af (k a)) -> keeps_af (bind m k).
Proof.
  intros Hm Hk s; unfold bind.
  specialize (Hm s); destruct (m s) as [[a|e] s'] eqn:E; cbn in *.
  - rewrite Hk; exact Hm.
  - exact Hm.
Qed.

Lemma keeps_try (m : M A) (h : exn -> M A) :
  keeps_af m -> (forall e, keeps_af (h e)) -> keeps_af (try_except m h).
Proof.
  intros Hm Hh s; unfold try_except.
  specialize (Hm s); destruct (m s) as [[a|e] s'] eqn:E; cbn in *.
  - exact Hm.
  - rewrite Hh; exact Hm.
Qed.

Lemma readonly_ret (a : A) : readonly (ret a).
Proof. intro; reflexivity. Qed.

Lemma readonly_raise e : readonly (@raise A e).
Proof. intro; reflexivity. Qed.

Lemma readonly_bind (m : M A) (k : A -> M B) :
  readonly m -> (forall a, readonly (k a)) -> readonly (bind m k).
Proof.
  intros Hm Hk s; unfold bind.
  specialize (Hm s); destruct (m s) as [[a|e] s'] eqn:E; cbn in *.
  - rewrite Hk; exact Hm.
  - exact Hm.
Qed.

Lemma readonly_try (m : M A) (h : exn -> M A) :
  readonly m -> (forall e, readonly (h e)) -> readonly (try_except m h).
Proof.
  intros Hm Hh s; unfold try_except.
  specialize (Hm s); destruct (m s) as [[a|e] s'] eqn:E; cbn in *.
  - exact Hm.
  - rewrite Hh; exact Hm.
Qed.

End Frames.

Lemma keeps_get : keeps_af get.
Proof. intro; reflexivity. Qed.

Lemma readonly_get : readonly get.
Proof. intro; reflexivity. Qed.

Lemma readonly_keeps {A} (m : M A) : readonly m -> keeps_af m.
Proof. intros H s; rewrite H; reflexivity. Qed.

Create HintDb frames.
#[local] Hint Resolve keeps_ret keeps_raise keeps_get readonly_ret readonly_raise
  readonly_get : frames.

(** Split a computation into its steps and discharge each from the
    lemmas of [frames]. *)
Ltac frame_step :=
  match goal with
  | |- keeps_af (bind _ _) => apply keeps_bind; [|intro]
  | |- keeps_af (try_except _ _) => apply keeps_try; [|intro]
  | |- keeps_af (modify _) => apply keeps_modify; intro; reflexivity
  | |- readonly (bind _ _) => apply readonly_bind; [|intro]
  | |- readonly (try_except _ _) => apply readonly_try; [|intro]
  | |- context [if ?b then _ else _] => destruct b
  | |- context [match ?x with _ => _ end] => destruct x
  | |- _ => solve [eauto with frames]
  end.

Ltac frames := cbv zeta; repeat frame_step.

Lemma readonly_stat_of n : readonly (stat_of n).
Proof. unfold stat_of; frames. Qed.
#[local] Hint Resolve readonly_stat_of : frames.

Lemma readonly_in_conns n : readonly (in_conns n).
Proof. unfold in_conns; frames. Qed.
#[local] Hint Resolve readonly_in_conns : frames.

Lemma readonly_conn_of n : readonly (conn_of n).
Proof. unfold conn_of; frames. Qed.
#[local] Hint Resolve readonly_conn_of : frames.

Lemma readonly_is_database_available n : readonly (is_database_available n).
Proof. unfold is_database_available; frames. Qed.
#[local] Hint Resolve readonly_is_database_available : frames.

Lemma readonly_deref r : readonly (deref r).
Proof. unfold deref; frames. Qed.
#[local] Hint Resolve readonly_deref : frames.

Lemma keeps_readonly_stat_of n : keeps_af (stat_of n).
Proof. apply readonly_keeps; eauto with frames. Qed.
Lemma keeps_in_conns n : keeps_af (in_conns n).
Proof. apply readonly_keeps; eauto with frames. Qed.
Lemma keeps_conn_of n : keeps_af (conn_of n).
Proof. apply readonly_keeps; eauto with frames. Qed.
Lemma keeps_is_database_available n : keeps_af (is_database_available n).
Proof. apply readonly_keeps; eauto with frames. Qed.
Lemma keeps_deref r : keeps_af (deref r).
Proof. apply readonly_keeps; eauto with frames. Qed.
#[local] Hint Resolve keeps_readonly_stat_of keeps_in_conns keeps_conn_of
  keeps_is_database_available keeps_deref : frames.

Lemma keeps_put_stat n st : keeps_af (put_stat n st).
Proof. unfold put_stat; frames. Qed.
#[local] Hint Resolve keeps_put_stat : frames.

Lemma keeps_mark_error n e : keeps_af (mark_error n e).
Proof. unfold mark_error; frames. Qed.
#[local] Hint Resolve keeps_mark_error : frames.

Lemma keeps_save_db_stats : keeps_af save_db_stats.
Proof. unfold save_db_stats; frames. Qed.
#[local] Hint Resolve keeps_save_db_stats : frames.

Lemma keeps_update_mongodb_stats n : keeps_af (update_mongodb_stats n).
Proof. unfold update_mongodb_stats; frames. Qed.
Lemma keeps_update_redis_stats n : keeps_af (update_redis_stats n).
Proof. unfold update_redis_stats; frames. Qed.
#[local] Hint Resolve keeps_update_mongodb_stats keeps_update_redis_stats : frames.

Lemma keeps_heap_set r x : keeps_af (heap_set r x).
Proof. unfold heap_set; frames. Qed.
Lemma keeps_alloc x : keeps_af (alloc x).
Proof. unfold alloc; frames. Qed.
Lemma keeps_log_write e : keeps_af (log_write e).
Proof. unfold log_write; frames. Qed.
#[local] Hint Resolve keeps_heap_set keeps_alloc keeps_log_write : frames.

Lemma keeps_store_in_database n r : keeps_af (_store_in_database n r).
Proof. unfold _store_in_database; frames. Qed.
#[local] Hint Resolve keeps_store_in_database : frames.
Lemma keeps_store_in_file r : keeps_af (_store_in_file r).
Proof. unfold _store_in_file; frames. Qed.
Lemma keeps_retry_on_active r : keeps_af (retry_on_active r).
Proof. unfold retry_on_active; frames. Qed.
#[local] Hint Resolve keeps_store_in_file keeps_retry_on_active : frames.

Lemma readonly_failover_loop cur l : forall nd np, readonly (failover_loop cur l nd np).
Proof. induction l; intros; cbn [failover_loop]; frames. Qed.
#[local] Hint Resolve readonly_failover_loop : frames.

Lemma readonly_read_backend u lim n c : readonly (read_backend u lim n c).
Proof. unfold read_backend; frames. Qed.
#[local] Hint Resolve readonly_read_backend : frames.

Lemma readonly_read_loop u lim cs : forall acc, readonly (read_loop u lim cs acc).
Proof. induction cs as [|[n c] cs IH]; intros; cbn [read_loop]; frames. Qed.
#[local] Hint Resolve readonly_read_loop : frames.

Lemma readonly_get_interactions_from_file u lim :
  readonly (_get_interactions_from_file u lim).
Proof. unfold _get_interactions_from_file; frames. Qed.
#[local] Hint Resolve readonly_get_interactions_from_file : frames.

Lemma readonly_get_user_interactions u lim : readonly (get_user_interactions u lim).
Proof. unfold get_user_interactions; frames. Qed.

Lemma keeps_stats_loop cs : keeps_af (stats_loop cs).
Proof. induction cs as [|[n c] cs IH]; cbn [stats_loop]; frames. Qed.
#[local] Hint Resolve keeps_stats_loop : frames.

Lemma keeps_get_database_stats : keeps_af get_database_stats.
Proof. unfold get_database_stats; frames. Qed.
#[local] Hint Resolve keeps_get_database_stats : frames.

Lemma keeps_add_conn n c : keeps_af (add_conn n c).
Proof. unfold add_conn; frames. Qed.
#[local] Hint Resolve keeps_add_conn : frames.

Lemma keeps_initialize_loop l : keeps_af (initialize_loop l).
Proof.
  induction l; cbn [initialize_loop]; unfold initialize_mongodb, initialize_redis; frames.
Qed.
#[local] Hint Resolve keeps_initialize_loop : frames.

Lemma keeps_initialize_databases : keeps_af initialize_databases.
Proof. unfold initialize_databases; frames. Qed.

Lemma keeps_load_db_stats : keeps_af load_db_stats.
Proof. unfold load_db_stats; frames. Qed.

(* ================================================================== *)
(** * Claims *)

(** C5 (code_bug).  A configuration with one reachable MongoDB backend
    under its size limit: [__init__] raises [AttributeError] instead of
    selecting it ([self.db_stats] is read before it is assigned), after the
    connection was made. *)
Lemma construct_one_reachable_raises :
  let cfg := mkconfig [mongo_cfg "A" 1] true true in
  fst (construct cfg (world_up (fun _ => false))) = Exn AttributeError /\
  mem "A" (db_connections (snd (construct cfg (world_up (fun _ => false))))) = true /\
  active_db (snd (construct cfg (world_up (fun _ => false)))) = None.
Proof. cbv zeta. repeat split; reflexivity. Qed.

(* ------------------------------------------------------------------ *)
(** ** Construction raises as soon as a backend is attempted *)

Lemma lookup_assoc_set_eq {A} k (v : A) l : lookup k (assoc_set k v l) = Some v.
Proof.
  induction l as [|[k' v'] l IH]; cbn.
  - rewrite String.eqb_refl; reflexivity.
  - destruct (String.eqb k k') eqn:E; cbn.
    + rewrite String.eqb_refl; reflexivity.
    + rewrite E; exact IH.
Qed.

Lemma mark_error_no_stats n e s :
  db_stats s = None -> mark_error n e s = (Exn AttributeError, s).
Proof. intro H. unfold mark_error, stat_of, bind, get, raise; cbn. rewrite H; reflexivity. Qed.

Lemma update_stats_no_stats_raises n c s :
  db_stats s = None -> lookup n (db_connections s) = Some c ->
  (ctype c = "mongodb" -> fst (update_mongodb_stats n s) = Exn AttributeError) /\
  (ctype c = "redis" -> fst (update_redis_stats n s) = Exn AttributeError).
Proof.
  destruct s as [cs act fb st cfg w h]; cbn; intros H L; subst st; split; intro T;
  unfold update_mongodb_stats, update_redis_stats, conn_of, try_except, bind, get, ret;
  cbn; rewrite L, T; cbn;
  destruct (w_stats_fail w n); reflexivity.
Qed.

Lemma initialize_attempt_raises c s :
  db_stats s = None -> (dtype c = "mongodb" \/ dtype c = "redis") ->
  fst (try_except
    (if String.eqb (dtype c) "mongodb" then initialize_mongodb (name c) c
     else if String.eqb (dtype c) "redis" then initialize_redis (name c) c
     else ret tt)
    (fun e => mark_error (name c) e) s) = Exn AttributeError.
Proof.
  destruct s as [cs act fb st cfg w h]; cbn; intros H T; subst st.
  destruct T as [T|T]; rewrite T; cbn;
  unfold initialize_mongodb, initialize_redis, add_conn, update_mongodb_stats,
    update_redis_stats, conn_of, mark_error, stat_of, put_stat, save_db_stats,
    try_except, bind, get, ret, raise, modify; cbn;
  destruct (w_reachable w (uri c)); cbn; try reflexivity;
  rewrite lookup_assoc_set_eq; cbn; destruct (w_stats_fail w (name c)); reflexivity.
Qed.

Lemma initialize_loop_raises l s :
  db_stats s = None ->
  (exists c, In c l /\ uri c <> "" /\ (dtype c = "mongodb" \/ dtype c = "redis")) ->
  fst (initialize_loop l s) = Exn AttributeError.
Proof.
  revert s; induction l as [|c l IH]; intros s H [c0 [Hin [Hu Ht]]]; [destruct Hin|].
  cbn [initialize_loop]. unfold bind at 1.
  destruct (String.eqb (uri c) "") eqn:Eu.
  - apply String.eqb_eq in Eu.
    destruct Hin as [<-|Hin]; [contradiction|].
    apply IH; [exact H|exists c0; auto].
  - destruct (String.eqb (dtype c) "mongodb" || String.eqb (dtype c) "redis") eqn:Et.
    + assert (Ht' : dtype c = "mongodb" \/ dtype c = "redis").
      { apply Bool.orb_true_iff in Et as [E|E]; apply String.eqb_eq in E; auto. }
      pose proof (initialize_attempt_raises c s H Ht') as R.
      destruct (try_except _ _ s) as [[u|e] s1]; cbn in R; [discriminate|].
      injection R as ->; reflexivity.
    + apply Bool.orb_false_iff in Et as [E1 E2]. rewrite E1, E2.
      destruct Hin as [<-|Hin].
      * destruct Ht as [T|T]; rewrite T in *; discriminate.
      * apply IH; [exact H|exists c0; auto].
Qed.

(** C2 (code_bug).  Whenever one configured MongoDB or Redis backend has a
    non-empty URI, construction raises [AttributeError], whether its
    connection attempt fails or succeeds: [initialize_databases] runs before
    [self.db_stats] is assigned, and its error handler (like
    [update_mongodb_stats]'s) writes to [self.db_stats]. *)
Theorem construct_raises_when_backend_attempted cfg w c :
  In c (databases cfg) -> uri c <> "" -> (dtype c = "mongodb" \/ dtype c = "redis") ->
  fst (construct cfg w) = Exn AttributeError.
Proof.
  intros Hin Hu Ht. unfold construct, initialize_databases, bind at 1 2, get.
  cbn -[initialize_loop].
  pose proof (initialize_loop_raises (databases cfg) (init_state cfg w) eq_refl
                (ex_intro _ c (conj Hin (conj Hu Ht)))) as R.
  destruct (initialize_loop _ _) as [[u|e] s1]; cbn in R; [discriminate|].
  injection R as ->; reflexivity.
Qed.

Lemma construct_raises_when_backend_attempted_witness :
  In default_primary (databases (mkconfig [default_primary] true true)) /\
  fst (construct (mkconfig [default_primary] true true) world_down) = Exn AttributeError.
Proof.
  split; [left; reflexivity|].
  apply (construct_raises_when_backend_attempted _ _ default_primary);
    [left; reflexivity|discriminate|left; reflexivity].
Defined.

(* ------------------------------------------------------------------ *)
(** ** The fallback invariant *)

Section Invariant.
Context {A B : Type}.

Lemma keeps_af_inv (m : M A) : keeps_af m -> keeps_inv m.
Proof.
  intros H s Hs. specialize (H s). unfold af in H. injection H as H1 H2.
  unfold fallback_iff_no_active. rewrite H1, H2. exact Hs.
Qed.

Lemma inv_bind (m : M A) (k : A -> M B) :
  keeps_inv m -> (forall a, keeps_inv (k a)) -> keeps_inv (bind m k).
Proof.
  intros Hm Hk s Hs; unfold bind.
  specialize (Hm s Hs); destruct (m s) as [[a|e] s'] eqn:E; cbn in *.
  - apply Hk; exact Hm.
  - exact Hm.
Qed.

Lemma inv_try (m : M A) (h : exn -> M A) :
  keeps_inv m -> (forall e, keeps_inv (h e)) -> keeps_inv (try_except m h).
Proof.
  intros Hm Hh s Hs; unfold try_except.
  specialize (Hm s Hs); destruct (m s) as [[a|e] s'] eqn:E; cbn in *.
  - exact Hm.
  - apply Hh; exact Hm.
Qed.

Lemma inv_modify_any (f : S -> S) :
  (forall s, fallback_iff_no_active (f s)) -> keeps_inv (modify f).
Proof. intros H s _; apply H. Qed.

End Invariant.

Lemma failover_loop_inf l : forall nd np s, failover_loop Inf l nd np s = (Ok nd, s).
Proof.
  induction l as [|c l IH]; intros; cbn [failover_loop]; [reflexivity|].
  cbn [prio_le]; apply IH.
Qed.

Lemma inv_failover : keeps_inv _failover_to_next_database.
Proof.
  intros s Hs. unfold _failover_to_next_database, bind at 1, get. cbv beta iota zeta.
  unfold bind, modify.
  pose proof (readonly_failover_loop
    (match active_db s with
     | Some a => if name_truthy (Some a) then priority_of a (databases (db_config s)) else Inf
     | None => Inf end) (databases (db_config s)) None Inf s) as R.
  destruct (fallback_to_file s) eqn:F.
  - assert (Ha : active_db s = None) by (apply Hs; exact F).
    rewrite Ha in *. rewrite failover_loop_inf. cbn.
    split; reflexivity.
  - destruct (failover_loop _ _ _ _ s) as [[nx|e] s1] eqn:E; cbn in R; subst s1; cbn.
    + destruct (name_truthy nx) eqn:T; cbn; unfold fallback_iff_no_active; cbn.
      * rewrite F. destruct nx; [|discriminate]. split; discriminate.
      * split; reflexivity.
    + exact Hs.
Qed.
#[local] Hint Resolve inv_failover : frames.

Ltac inv_step :=
  match goal with
  | |- keeps_inv (bind _ _) => apply inv_bind; [|intro]
  | |- keeps_inv (try_except _ _) => apply inv_try; [|intro]
  | |- keeps_inv (if ?b then _ else _) => destruct b
  | |- keeps_inv (match ?x with _ => _ end) => destruct x
  | |- keeps_inv _failover_to_next_database => apply inv_failover
  | |- keeps_inv (modify _) =>
        apply inv_modify_any; intro; unfold fallback_iff_no_active; cbn;
        split; first [reflexivity | discriminate]
  | |- keeps_inv _ => apply keeps_af_inv; solve [frames]
  end.

Lemma inv_store_interaction u m r ct g f : keeps_inv (store_interaction u m r ct g f).
Proof. unfold store_interaction; cbv zeta; repeat inv_step. Qed.

Lemma inv_db_switch n : keeps_inv (db_switch n).
Proof. unfold db_switch; repeat inv_step. Qed.

Lemma set_active_loop_inv l :
  forall s s', fallback_to_file s = false -> set_active_loop l s = (Ok tt, s') ->
  fallback_iff_no_active s'.
Proof.
  induction l as [|c l IH]; intros s s' F E; cbn [set_active_loop] in E.
  - unfold modify in E. injection E as <-. split; reflexivity.
  - unfold bind at 1, in_conns, bind, get, ret in E. cbv beta iota in E.
    destruct (mem (name c) (db_connections s)); cbn [negb] in E; [|eapply IH; eauto].
    pose proof (readonly_is_database_available (name c) s) as R.
    destruct (is_database_available (name c) s) as [[ok|e] s1]; cbn in R; subst s1;
      cbv beta iota in E; [|discriminate].
    destruct ok; [|eapply IH; eauto].
    unfold modify in E. injection E as <-. unfold fallback_iff_no_active; cbn.
    rewrite F. split; discriminate.
Qed.

Lemma construct_inv cfg w s : construct cfg w = (Ok tt, s) -> fallback_iff_no_active s.
Proof.
  unfold construct. unfold bind at 1.
  pose proof (keeps_initialize_databases (init_state cfg w)) as K1.
  destruct (initialize_databases _) as [[u|e] s1]; [|discriminate].
  cbn in K1. unfold af in K1. injection K1 as _ F1. cbn in F1.
  unfold bind at 1, set_active_database, bind at 1, get.
  cbv beta iota.
  destruct (set_active_loop _ s1) as [[u'|e] s2] eqn:E2; [|discriminate].
  destruct u'. apply set_active_loop_inv in E2; [|exact F1].
  unfold bind. pose proof (keeps_load_db_stats s2) as K3.
  destruct (load_db_stats s2) as [[m|e] s3]; [|discriminate].
  unfold modify; intro E; injection E as <-.
  cbn in K3. unfold af in K3. injection K3 as H1 H2.
  unfold fallback_iff_no_active in *; cbn. rewrite H1, H2. exact E2.
Qed.

(* ------------------------------------------------------------------ *)
(** ** Selection only picks databases whose status is connected *)

Lemma is_database_available_true n s :
  fst (is_database_available n s) = Ok true ->
  exists m st, db_stats s = Some m /\ lookup n m = Some st /\ status st = "connected".
Proof.
  unfold is_database_available, conn_of, stat_of, bind, get, ret, raise; cbn.
  destruct (lookup n (db_connections s)); [|discriminate].
  destruct (db_stats s) as [m|] eqn:D; [|discriminate].
  destruct (lookup n m) as [st|] eqn:L; cbn; [|discriminate].
  destruct (String.eqb (status st) "connected") eqn:E; cbn; [|discriminate].
  intros _; exists m, st; split; [reflexivity|split; [exact L|]].
  apply String.eqb_eq; exact E.
Qed.

Lemma set_active_loop_selects l :
  forall s s', set_active_loop l s = (Ok tt, s') ->
  active_db s' = None \/
  exists x, active_db s' = Some x /\ fst (is_database_available x s) = Ok true.
Proof.
  induction l as [|c l IH]; intros s s' E; cbn [set_active_loop] in E.
  - unfold modify in E. injection E as <-. left; reflexivity.
  - unfold bind at 1, in_conns, bind, get, ret in E. cbv beta iota in E.
    destruct (mem (name c) (db_connections s)); cbn [negb] in E; [|eapply IH; eauto].
    pose proof (readonly_is_database_available (name c) s) as R.
    destruct (is_database_available (name c) s) as [[ok|e] s1] eqn:D; cbn in R; subst s1;
      cbv beta iota in E; [|discriminate].
    destruct ok; [|eapply IH; eauto].
    unfold modify in E. injection E as <-. right; exists (name c); split; [reflexivity|].
    rewrite D; reflexivity.
Qed.

Lemma failover_loop_selects cur l :
  forall nd np s r s', failover_loop cur l nd np s = (Ok r, s') ->
  r = nd \/ exists x, r = Some x /\ fst (is_database_available x s) = Ok true.
Proof.
  induction l as [|c l IH]; intros nd np s r s' E; cbn [failover_loop] in E.
  - injection E as <- _. left; reflexivity.
  - destruct (prio_le (Fin (priority c)) cur); [eapply IH; eauto|].
    unfold bind at 1, in_conns, bind, get, ret in E. cbv beta iota in E.
    destruct (mem (name c) (db_connections s)); cbn [negb] in E; [|eapply IH; eauto].
    pose proof (readonly_is_database_available (name c) s) as R.
    destruct (is_database_available (name c) s) as [[ok|e] s1] eqn:D; cbn in R; subst s1;
      cbv beta iota in E; [|discriminate].
    destruct (ok && prio_lt (Fin (priority c)) np) eqn:O.
    + destruct (IH _ _ _ _ _ E) as [->|H]; [|right; exact H].
      right; exists (name c); split; [reflexivity|].
      apply andb_true_iff in O as [-> _]. rewrite D; reflexivity.
    + eapply IH; eauto.
Qed.

(** C8.  Neither [set_active_database] nor the failover makes active a
    database whose recorded status is not ["connected"] (e.g. ["error"]):
    both go through [is_database_available].  The status only becomes
    ["connected"] again through a successful refresh in
    [update_mongodb_stats] / [update_redis_stats] (run at connect time, after
    a successful write, and by [get_database_stats]). *)
Theorem selection_skips_unhealthy s n m st :
  db_stats s = Some m -> lookup n m = Some st -> status st <> "connected" ->
  (forall s', set_active_database s = (Ok tt, s') -> active_db s' <> Some n) /\
  (forall s', _failover_to_next_database s = (Ok tt, s') -> active_db s' <> Some n).
Proof.
  intros Hm Hn Hst.
  assert (Hx : forall x, fst (is_database_available x s) = Ok true -> x <> n).
  { intros x Hx ->. apply is_database_available_true in Hx as [m' [st' [E1 [E2 E3]]]].
    rewrite Hm in E1; injection E1 as <-. rewrite Hn in E2; injection E2 as <-.
    contradiction. }
  split; intros s' E.
  - unfold set_active_database, bind at 1, get in E. cbv beta iota in E.
    destruct (set_active_loop_selects _ _ _ E) as [->|[x [-> Hd]]]; [discriminate|].
    intro Heq; injection Heq as <-. exact (Hx x Hd eq_refl).
  - unfold _failover_to_next_database, bind at 1, get in E. cbv beta iota zeta in E.
    unfold bind in E.
    destruct (failover_loop _ _ None Inf s) as [[nx|e] s1] eqn:F; [|discriminate].
    match type of F with failover_loop ?c ?l ?a ?b s = _ =>
      pose proof (readonly_failover_loop c l a b s) as R end.
    rewrite F in R; cbn in R; subst s1.
    destruct (failover_loop_selects _ _ _ _ _ _ _ F) as [->|[x [-> Hd]]].
    + unfold modify in E; cbn in E. injection E as <-. discriminate.
    + destruct (name_truthy (Some x)); unfold modify in E; injection E as <-; cbn;
        [|discriminate].
      intro Heq; injection Heq as <-. exact (Hx x Hd eq_refl).
Qed.

Lemma selection_skips_unhealthy_witness :
  db_stats file_mode_with_A = Some [("A", stat_error)] /\
  (forall s', set_active_database file_mode_with_A = (Ok tt, s') -> active_db s' <> Some "A").
Proof.
  split; [reflexivity|].
  apply (selection_skips_unhealthy file_mode_with_A "A" [("A", stat_error)] stat_error);
    [reflexivity|reflexivity|discriminate].
Defined.

(* ------------------------------------------------------------------ *)
(** ** User ids *)

(** C10.  [store_interaction] and [get_user_interactions] only use their
    [user_id] through [str(user_id)]: calling them with [v] or with
    [str(v)] is the same computation, and the stored dict's ["user_id"] is
    [str(v)]. *)
Theorem user_id_normalised v msg resp ct g fb :
  store_interaction v msg resp ct g fb = store_interaction (PStr (py_str v)) msg resp ct g fb /\
  (forall lim, get_user_interactions v lim = get_user_interactions (PStr (py_str v)) lim) /\
  (forall now, user_id (make_interaction v msg resp now ct g fb) = py_str v).
Proof. repeat split. Qed.

(* ------------------------------------------------------------------ *)
(** ** The per-user file keeps the last 100 records *)

Lemma skipn_app_le {A} n (l1 l2 : list A) :
  (n <= length l1)%nat -> skipn n (l1 ++ l2) = skipn n l1 ++ l2.
Proof.
  intro H. rewrite skipn_app. replace (n - length l1)%nat with 0%nat by lia. reflexivity.
Qed.

Lemma lastn_app_lastn {A} k (l l2 : list A) : lastn k (lastn k l ++ l2) = lastn k (l ++ l2).
Proof.
  unfold lastn. rewrite length_app, length_skipn, length_app.
  rewrite <- skipn_app_le by lia.
  rewrite skipn_skipn. f_equal. lia.
Qed.

Lemma keep_last_100_lastn l : keep_last_100 l = lastn 100 l.
Proof.
  unfold keep_last_100, lastn, py_slice_from, py_index.
  destruct (Nat.ltb 100 (length l)) eqn:E.
  - apply Nat.ltb_lt in E. cbn - [Z.of_nat]. f_equal. lia.
  - apply Nat.ltb_ge in E. replace (length l - 100)%nat with 0%nat by lia. reflexivity.
Qed.

Lemma forallb_skipn {A} (f : A -> bool) n l :
  forallb f l = true -> forallb f (skipn n l) = true.
Proof.
  revert l; induction n; intros [|a l] H; cbn in *; auto.
  apply andb_true_iff in H as [_ H]; auto.
Qed.

Lemma no_oid_keep_last_100 l x :
  no_oid l = true -> oid x = false -> no_oid (keep_last_100 (l ++ [x])) = true.
Proof.
  intros H Hx. rewrite keep_last_100_lastn. unfold lastn, no_oid in *.
  apply forallb_skipn. rewrite forallb_app, H; cbn. rewrite Hx; reflexivity.
Qed.

Lemma alloc_eq x s : alloc x s = (Ok (length (heap s)), s_with_heap s (heap s ++ [x])).
Proof. reflexivity. Qed.

Lemma store_in_file_spec r s x :
  nth r (heap s) default_interaction = x ->
  w_dir_ok (world_ s) = true -> w_io_ok (world_ s) = true ->
  no_oid (file_records (world_ s) (user_id x)) = true -> oid x = false ->
  _store_in_file r s =
  (Ok tt, s_with_world s (w_with_file (w_log (world_ s) (WFile (user_id x))) (user_id x)
            (FValid (keep_last_100 (file_records (world_ s) (user_id x) ++ [x]))))).
Proof.
  intros Hx Hd Hio Hf Ho.
  pose proof (no_oid_keep_last_100 _ _ Hf Ho) as Hk. unfold no_oid, file_records in Hk.
  unfold _store_in_file, deref, bind, get, ret, log_write, modify; cbv beta iota zeta.
  rewrite Hx, Hd, Hio. cbn [negb]. rewrite Hk. reflexivity.
Qed.

Lemma w_files_with_file_same w u c : w_files (w_with_file w u c) u = Some c.
Proof. unfold w_with_file, upd; cbn. rewrite String.eqb_refl; reflexivity. Qed.

Lemma append_all_spec xs : forall s u,
  w_dir_ok (world_ s) = true -> w_io_ok (world_ s) = true ->
  forallb (fun x => String.eqb (user_id x) u && negb (oid x)) xs = true ->
  no_oid (file_records (world_ s) u) = true -> xs <> [] ->
  w_files (world_ (snd (append_all xs s))) u =
    Some (FValid (lastn 100 (file_records (world_ s) u ++ xs))).
Proof.
  induction xs as [|x xs IH]; intros s u Hd Hio Hxs Hf Hne; [contradiction|].
  cbn [forallb] in Hxs. apply andb_true_iff in Hxs as [Hx Hxs].
  apply andb_true_iff in Hx as [Hu Ho]. apply String.eqb_eq in Hu; subst u.
  apply negb_true_iff in Ho.
  cbn [append_all]. unfold bind at 1. rewrite alloc_eq. cbv beta iota.
  unfold bind at 1.
  rewrite (store_in_file_spec _ (s_with_heap s (heap s ++ [x])) x);
    [|apply nth_middle|exact Hd|exact Hio|exact Hf|exact Ho].
  cbv beta iota.
  set (s2 := s_with_world _ _).
  assert (F2 : w_files (world_ s2) (user_id x) =
               Some (FValid (keep_last_100 (file_records (world_ s) (user_id x) ++ [x]))))
    by apply w_files_with_file_same.
  destruct xs as [|y ys].
  - cbn [append_all]. unfold ret; cbn [snd]. rewrite F2, keep_last_100_lastn. reflexivity.
  - rewrite IH; [| exact Hd | exact Hio | exact Hxs | | discriminate].
    + unfold file_records at 1. rewrite F2, keep_last_100_lastn, lastn_app_lastn.
      rewrite <- app_assoc. reflexivity.
    + unfold file_records at 1. rewrite F2. apply no_oid_keep_last_100; assumption.
Qed.

(** C9.  Appending records of one user one after the other through the file
    fallback leaves in the user's file a valid JSON array of at most 100
    records: exactly the last 100 of (previous contents ++ appended records),
    in order.  In particular 150 appends to an empty file leave the last
    100 of them.  The interactions directory can be created and the file
    written, and no record carries a MongoDB ObjectId. *)
Theorem file_fallback_keeps_last_100 xs s u :
  w_dir_ok (world_ s) = true -> w_io_ok (world_ s) = true ->
  forallb (fun x => String.eqb (user_id x) u && negb (oid x)) xs = true ->
  no_oid (file_records (world_ s) u) = true ->
  (0 < length xs)%nat ->
  let w' := world_ (snd (append_all xs s)) in
  w_files w' u = Some (FValid (file_records w' u)) /\
  file_records w' u = lastn 100 (file_records (world_ s) u ++ xs) /\
  (length (file_records w' u) <= 100)%nat /\
  (file_records (world_ s) u = [] -> length xs = 150%nat -> file_records w' u = skipn 50 xs).
Proof.
  intros Hd Hio Hxs Hf Hlen w'.
  assert (Hne : xs <> []) by (destruct xs; cbn in Hlen; [lia|discriminate]).
  pose proof (append_all_spec xs s u Hd Hio Hxs Hf Hne) as H.
  assert (Hr : file_records w' u = lastn 100 (file_records (world_ s) u ++ xs))
    by (unfold file_records at 1, w'; rewrite H; reflexivity).
  split; [unfold w'; rewrite H; f_equal; f_equal; symmetry; exact Hr|].
  split; [exact Hr|].
  split.
  - rewrite Hr. unfold lastn. rewrite length_skipn. lia.
  - intros H0 H150. rewrite Hr, H0. unfold lastn. cbn. rewrite H150. reflexivity.
Qed.

Lemma file_fallback_keeps_last_100_witness :
  let s := running (mkconfig [] true true) (world_up (fun _ => false)) None true in
  file_records (world_ (snd (append_all (repeat ball 150) s))) "42" = repeat ball 100.
Proof.
  cbv zeta.
  destruct (file_fallback_keeps_last_100 (repeat ball 150)
              (running (mkconfig [] true true) (world_up (fun _ => false)) None true) "42")
    as [_ [_ [_ H]]]; [reflexivity|reflexivity|vm_compute; reflexivity|reflexivity|cbn; lia|].
  rewrite H by reflexivity. reflexivity.
Defined.

(* ------------------------------------------------------------------ *)
(** ** Round trip through the file fallback *)

Lemma py_slice_from_last {A} (l : list A) x : py_slice_from (-1) (l ++ [x]) = [x].
Proof.
  unfold py_slice_from, py_index. rewrite length_app. cbn [length].
  assert ((-1 <? 0)%Z = true) as -> by reflexivity.
  replace (Z.to_nat (Z.max 0 (Z.of_nat (length l + 1) + -1))) with (length l) by lia.
  rewrite skipn_app, skipn_all, Nat.sub_diag. reflexivity.
Qed.

Lemma keep_last_100_last l (x : interaction) :
  py_slice_from (-1) (keep_last_100 (l ++ [x])) = [x].
Proof.
  rewrite keep_last_100_lastn. unfold lastn.
  rewrite skipn_app_le by (rewrite length_app; cbn; lia).
  apply py_slice_from_last.
Qed.

Lemma store_interaction_no_active u msg resp ct g fb s :
  learning_enabled (db_config s) = true -> active_db s = None ->
  store_interaction u msg resp ct g fb s =
  _store_in_file (length (heap s))
    (s_with_heap s (heap s ++ [make_interaction u msg resp (w_now (world_ s)) ct g fb])).
Proof.
  intros Hl Ha.
  unfold store_interaction, bind, get, ret. rewrite Hl. cbn [negb].
  rewrite alloc_eq. cbv beta iota.
  unfold s_with_heap; cbn [active_db fallback_to_file]. rewrite Ha.
  cbn [name_truthy negb]. rewrite orb_true_r. reflexivity.
Qed.

(** With no backend connected or active, recording an entry and then
    querying its user with [limit=1] returns the dict [store_interaction]
    built, when the directory can be created, the file written, and the
    user's file holds no record [json.dump] cannot serialise. *)
Lemma round_trip_file_mode u msg resp ct g fb s :
  learning_enabled (db_config s) = true ->
  db_connections s = [] -> active_db s = None ->
  w_dir_ok (world_ s) = true -> w_io_ok (world_ s) = true ->
  no_oid (file_records (world_ s) (py_str u)) = true ->
  fst (get_user_interactions u 1 (snd (store_interaction u msg resp ct g fb s))) =
  Ok [make_interaction u msg resp (w_now (world_ s)) ct g fb].
Proof.
  intros Hl Hc Ha Hd Hio Hf.
  rewrite (store_interaction_no_active _ _ _ _ _ _ _ Hl Ha).
  set (x := make_interaction u msg resp (w_now (world_ s)) ct g fb).
  rewrite (store_in_file_spec _ _ x);
    [| apply nth_middle | exact Hd | exact Hio | exact Hf | reflexivity].
  cbn [snd].
  unfold get_user_interactions, bind, get, ret. cbv beta iota.
  unfold s_with_world at 1; cbn [db_connections]. unfold s_with_heap; cbn [db_connections].
  rewrite Hc. cbn [read_loop]. unfold ret; cbv beta iota. cbn [length Nat.eqb orb].
  unfold _get_interactions_from_file, bind, get. cbv beta iota zeta.
  unfold s_with_world at 1; cbn [world_ py_str].
  replace (user_id x) with (py_str u) by reflexivity.
  rewrite w_files_with_file_same. unfold ret; cbv beta iota.
  cbn [app]. rewrite keep_last_100_last. reflexivity.
Qed.

(* ------------------------------------------------------------------ *)
(** ** What a query returns *)

Lemma ts_after_asym x y : ts_after x y = true -> ts_after y x = false.
Proof.
  unfold ts_after, String.ltb. rewrite (String.compare_antisym (timestamp x)).
  destruct (String.compare (timestamp y) (timestamp x)); cbn; congruence.
Qed.

Lemma insert_by_sorted x l :
  Sorted newer_first l -> Sorted newer_first (insert_by ts_after x l).
Proof.
  induction l as [|y l IH]; intros H; cbn.
  - constructor; constructor.
  - destruct (ts_after x y) eqn:E.
    + constructor; [exact H|]. constructor. apply ts_after_asym, E.
    + inversion H as [|? ? Hs Hh]; subst. constructor; [apply IH, Hs|].
      destruct l as [|z l']; cbn.
      * constructor. exact E.
      * destruct (ts_after x z); constructor; [exact E|].
        inversion Hh; assumption.
Qed.

Lemma sort_desc_sorted l : Sorted newer_first (sort_desc l).
Proof.
  unfold sort_desc, sort_by.
  assert (G : forall acc, Sorted newer_first acc ->
            Sorted newer_first (fold_left (fun acc x => insert_by ts_after x acc) l acc)).
  { induction l as [|x l IH]; intros acc H; cbn; [exact H|].
    apply IH, insert_by_sorted, H. }
  apply G. constructor.
Qed.

Lemma insert_by_perm {A} (f : A -> A -> bool) x l : Permutation (insert_by f x l) (x :: l).
Proof.
  induction l as [|y l IH]; cbn; [reflexivity|].
  destruct (f x y); [reflexivity|].
  rewrite IH. apply perm_swap.
Qed.

Lemma sort_by_perm {A} (f : A -> A -> bool) l : Permutation (sort_by f l) l.
Proof.
  unfold sort_by.
  assert (G : forall acc, Permutation (fold_left (fun acc x => insert_by f x acc) l acc)
                                      (acc ++ l)).
  { induction l as [|x l IH]; intros acc; cbn; [rewrite app_nil_r; reflexivity|].
    rewrite IH, insert_by_perm. cbn. apply Permutation_middle. }
  apply G.
Qed.

Lemma Sorted_firstn {A} (R : A -> A -> Prop) n l : Sorted R l -> Sorted R (firstn n l).
Proof.
  revert n; induction l as [|a l IH]; intros [|n] H; cbn; try constructor.
  inversion H as [|? ? Hs Hh]; subst. apply IH, Hs.
  inversion H as [|? ? Hs Hh]; subst.
  destruct n, l; cbn; constructor. inversion Hh; assumption.
Qed.

Lemma py_index_pos (lim : Z) len : (0 < lim)%Z -> py_index lim len = Nat.min (Z.to_nat lim) len.
Proof.
  intro H. unfold py_index.
  replace (lim <? 0)%Z with false by (symmetry; apply Z.ltb_ge; lia). lia.
Qed.

Lemma slice_sort_spec lim L : (0 < lim)%Z ->
  (exists rest, Permutation L (py_slice_to lim (sort_desc L) ++ rest)) /\
  length (py_slice_to lim (sort_desc L)) = Nat.min (Z.to_nat lim) (length L) /\
  Sorted newer_first (py_slice_to lim (sort_desc L)).
Proof.
  intro H. unfold py_slice_to. rewrite py_index_pos by exact H.
  split; [|split].
  - eexists. rewrite firstn_skipn. symmetry. apply sort_by_perm.
  - rewrite length_firstn. unfold sort_desc. rewrite (Permutation_length (sort_by_perm _ L)). lia.
  - apply Sorted_firstn, sort_desc_sorted.
Qed.

(** The [try] of each backend catches everything: its body returns. *)
Lemma read_backend_returns u lim n c s e : fst (read_backend u lim n c s) <> Exn e.
Proof.
  unfold read_backend, bind, get, ret; cbv beta iota zeta.
  destruct (String.eqb (ctype c) "mongodb"); [|destruct (String.eqb (ctype c) "redis")];
    [destruct (w_read_fail (world_ s) n)..|]; discriminate.
Qed.

Lemma read_loop_eq u lim cs : forall acc s,
  read_loop u lim cs acc s = (Ok (acc ++ concat (map (part_of u lim s) cs)), s).
Proof.
  induction cs as [|[n c] cs IH]; intros acc s; cbn [read_loop].
  - cbn. rewrite app_nil_r. reflexivity.
  - unfold bind. pose proof (readonly_read_backend u lim n c s) as R.
    pose proof (read_backend_returns u lim n c s) as NE.
    unfold part_of at 1; cbn [fst snd map concat].
    destruct (read_backend u lim n c s) as [[p|e] s'] eqn:E; cbn in R; subst s'; cbn [fst].
    + rewrite IH, app_assoc. reflexivity.
    + exfalso. apply (NE e). reflexivity.
Qed.

Lemma flat_map_le_one {A B} (f : A -> list B) l :
  (forall a, (length (f a) <= 1)%nat) -> (length (flat_map f l) <= length l)%nat.
Proof.
  intro H. induction l as [|a l IH]; cbn; [lia|].
  rewrite length_app. specialize (H a). lia.
Qed.

Lemma part_of_length u lim s nc : (0 < lim)%Z ->
  (length (part_of u lim s nc) <= Z.to_nat lim)%nat.
Proof.
  intro Hl. destruct nc as [n c].
  unfold part_of, read_backend, bind, get, ret, raise; cbv beta iota zeta; cbn [fst snd].
  destruct (String.eqb (ctype c) "mongodb").
  - set (docs := map without_oid (mongo_limit lim _)).
    assert (D : (length docs <= Z.to_nat lim)%nat).
    { unfold docs. rewrite length_map. unfold mongo_limit.
      replace (lim =? 0)%Z with false by (symmetry; apply Z.eqb_neq; lia).
      rewrite length_firstn. lia. }
    destruct (w_read_fail (world_ s) n); cbn [fst]; [rewrite length_firstn; lia | exact D].
  - destruct (String.eqb (ctype c) "redis"); [|cbn; lia].
    set (keys := py_slice_to lim _).
    assert (K : (length keys <= Z.to_nat lim)%nat)
      by (unfold keys, py_slice_to; rewrite length_firstn, py_index_pos by exact Hl; lia).
    destruct (w_read_fail (world_ s) n); cbn [fst];
      (etransitivity; [apply flat_map_le_one; intro k; destruct (lookup k _); cbn; lia|]);
      [rewrite length_firstn|]; lia.
Qed.

Lemma file_condition n lim : (0 < lim)%Z ->
  (Nat.eqb n 0 || (Z.of_nat n <? lim)%Z) = (Z.of_nat n <? lim)%Z.
Proof.
  intro H. destruct n; cbn [Nat.eqb orb]; [|reflexivity].
  symmetry. apply Z.ltb_lt. lia.
Qed.

(** X16.  For a positive [limit] and any state, a query reads every
    backend in [db_connections] (each contributes at most [limit] records;
    one whose read raises contributes the records delivered before the
    exception), reads the user's file (its last [limit] records) only when
    the backends returned fewer than [limit] records altogether, and
    returns exactly min(limit, collected) of the collected records, sorted
    by timestamp, newest first; the state is unchanged. *)
Theorem get_user_interactions_spec u lim s :
  (0 < lim)%Z ->
  let parts := map (part_of (py_str u) lim s) (db_connections s) in
  let F := if (Z.of_nat (length (concat parts)) <? lim)%Z
           then py_slice_from (- lim) (file_records (world_ s) (py_str u)) else [] in
  exists res,
    get_user_interactions u lim s = (Ok res, s) /\
    Forall (fun p => (length p <= Z.to_nat lim)%nat) parts /\
    (exists rest, Permutation (concat parts ++ F) (res ++ rest)) /\
    length res = Nat.min (Z.to_nat lim) (length (concat parts ++ F)) /\
    Sorted newer_first res.
Proof.
  intros Hl parts F.
  assert (Hq : get_user_interactions u lim s =
               (Ok (py_slice_to lim (sort_desc (concat parts ++ F))), s)).
  { unfold get_user_interactions, bind, get, ret. cbv beta iota zeta.
    rewrite read_loop_eq. cbv beta iota. cbn [app].
    change (concat (map (part_of (py_str u) lim s) (db_connections s))) with (concat parts).
    rewrite file_condition by exact Hl.
    unfold F. destruct (Z.of_nat (length (concat parts)) <? lim)%Z.
    - unfold _get_interactions_from_file, bind, get, ret. cbv beta iota zeta. cbn [py_str].
      unfold file_records. destruct (w_files (world_ s) (py_str u)) as [[l|]|]; try reflexivity;
        unfold py_slice_from; rewrite skipn_nil; reflexivity.
    - rewrite app_nil_r. reflexivity. }
  exists (py_slice_to lim (sort_desc (concat parts ++ F))).
  destruct (slice_sort_spec lim (concat parts ++ F) Hl) as [P [L So]].
  split; [exact Hq|]. split; [|split; [exact P|split; [exact L|exact So]]].
  apply Forall_forall. intros p Hp. unfold parts in Hp.
  apply in_map_iff in Hp as [nc [<- _]]. apply part_of_length, Hl.
Qed.

Lemma get_user_interactions_spec_witness :
  let s := running (mkconfig [mongo_cfg "A" 1] true true) world_split (Some "A") false in
  (0 < 2)%Z /\
  exists res, get_user_interactions (PStr "42") 2 s = (Ok res, s) /\ Sorted newer_first res.
Proof.
  cbv zeta. split; [lia|].
  destruct (get_user_interactions_spec (PStr "42") 2
              (running (mkconfig [mongo_cfg "A" 1] true true) world_split (Some "A") false)
              ltac:(lia)) as [res [H [_ [_ [_ So]]]]].
  exists res. split; [exact H | exact So].
Defined.

(* ------------------------------------------------------------------ *)
(** ** Views of the state a computation keeps *)

Section Proj.
Context {T A B : Type} (pi : S -> T).

Lemma kp_ret (a : A) : keeps_proj pi (ret a).
Proof. intro; reflexivity. Qed.

Lemma kp_raise e : keeps_proj pi (@raise A e).
Proof. intro; reflexivity. Qed.

Lemma kp_get : keeps_proj pi get.
Proof. intro; reflexivity. Qed.

Lemma kp_modify (f : S -> S) : (forall s, pi (f s) = pi s) -> keeps_proj pi (modify f).
Proof. intros H s; apply H. Qed.

Lemma kp_bind (m : M A) (k : A -> M B) :
  keeps_proj pi m -> (forall a, keeps_proj pi (k a)) -> keeps_proj pi (bind m k).
Proof.
  intros Hm Hk s; unfold bind.
  specialize (Hm s); destruct (m s) as [[a|e] s'] eqn:E; cbn in *.
  - rewrite Hk; exact Hm.
  - exact Hm.
Qed.

Lemma kp_try (m : M A) (h : exn -> M A) :
  keeps_proj pi m -> (forall e, keeps_proj pi (h e)) -> keeps_proj pi (try_except m h).
Proof.
  intros Hm Hh s; unfold try_except.
  specialize (Hm s); destruct (m s) as [[a|e] s'] eqn:E; cbn in *.
  - exact Hm.
  - rewrite Hh; exact Hm.
Qed.

Lemma kp_readonly (m : M A) : readonly m -> keeps_proj pi m.
Proof. intros H s; rewrite H; reflexivity. Qed.

End Proj.

Create HintDb proj.
#[local] Hint Resolve kp_ret kp_raise kp_get : proj.
#[local] Hint Extern 1 (keeps_proj _ ?m) =>
  apply kp_readonly; solve [eauto with frames] : proj.

Ltac proj_step :=
  match goal with
  | |- keeps_proj _ (bind _ _) => apply kp_bind; [|intro]
  | |- keeps_proj _ (try_except _ _) => apply kp_try; [|intro]
  | |- keeps_proj _ (modify _) => apply kp_modify; intro; reflexivity
  | |- keeps_proj _ (if ?b then _ else _) => destruct b
  | |- keeps_proj _ (match ?x with _ => _ end) => destruct x
  | |- _ => solve [eauto with proj]
  end.

Ltac projs := cbv zeta; repeat proj_step.

Lemma writes_put_stat n st : keeps_proj writes (put_stat n st).
Proof. unfold put_stat; projs. Qed.
#[local] Hint Resolve writes_put_stat : proj.
Lemma writes_mark_error n e : keeps_proj writes (mark_error n e).
Proof. unfold mark_error; projs. Qed.
Lemma writes_save_db_stats : keeps_proj writes save_db_stats.
Proof. unfold save_db_stats; projs. Qed.
#[local] Hint Resolve writes_mark_error writes_save_db_stats : proj.
Lemma writes_update_mongodb_stats n : keeps_proj writes (update_mongodb_stats n).
Proof. unfold update_mongodb_stats; projs. Qed.
Lemma writes_update_redis_stats n : keeps_proj writes (update_redis_stats n).
Proof. unfold update_redis_stats; projs. Qed.
Lemma writes_heap_set r x : keeps_proj writes (heap_set r x).
Proof. unfold heap_set; projs. Qed.
#[local] Hint Resolve writes_update_mongodb_stats writes_update_redis_stats
  writes_heap_set : proj.

Lemma core_save_db_stats : keeps_proj (fun s => (db_connections s, db_config s,
  active_db s, fallback_to_file s, db_stats s, heap s, writes s)) save_db_stats.
Proof. unfold save_db_stats; projs. Qed.

Lemma save_db_stats_ok s : fst (save_db_stats s) = Ok tt.
Proof.
  unfold save_db_stats, bind, get, ret, modify; cbv beta iota.
  destruct (db_stats s); [destruct (w_io_ok (world_ s))|]; reflexivity.
Qed.

Section Grow.
Context {A B : Type} (e : wlog).

Lemma grow_keeps (m : M A) : keeps_proj writes m -> writes_grow e m.
Proof. intros H s; left; apply H. Qed.

Lemma grow_bind_l (m : M A) (k : A -> M B) :
  keeps_proj writes m -> (forall a, writes_grow e (k a)) -> writes_grow e (bind m k).
Proof.
  intros Hm Hk s; unfold bind.
  specialize (Hm s); destruct (m s) as [[a|x] s'] eqn:E; cbn in *.
  - rewrite <- Hm; apply Hk.
  - left; exact Hm.
Qed.

Lemma grow_log (k : unit -> M B) :
  (forall a, keeps_proj writes (k a)) -> writes_grow e (bind (log_write e) k).
Proof.
  intros Hk s; right. unfold bind, log_write, modify; cbv beta iota.
  rewrite Hk. reflexivity.
Qed.

Lemma grow_try (m : M A) (h : exn -> M A) :
  writes_grow e m -> (forall x, keeps_proj writes (h x)) -> writes_grow e (try_except m h).
Proof.
  intros Hm Hh s; unfold try_except.
  specialize (Hm s); destruct (m s) as [[a|x] s'] eqn:E; cbn in *.
  - exact Hm.
  - rewrite Hh; exact Hm.
Qed.

End Grow.

Ltac grow_step :=
  match goal with
  | |- writes_grow _ (bind (log_write _) _) => apply grow_log; intro; projs
  | |- writes_grow _ (bind _ _) => apply grow_bind_l; [projs|intro]
  | |- writes_grow _ (try_except _ _) => apply grow_try; [|intro; projs]
  | |- writes_grow _ (if ?b then _ else _) => destruct b
  | |- writes_grow _ (match ?x with _ => _ end) => destruct x
  | |- writes_grow _ _ => apply grow_keeps; projs
  end.

(** [_store_in_database n] sends at most the one write to [n]. *)
Lemma grow_store_in_database n r : writes_grow (WBackend n) (_store_in_database n r).
Proof. unfold _store_in_database; cbv zeta; repeat grow_step. Qed.

(* ------------------------------------------------------------------ *)
(** ** A failed write to the active backend *)

Lemma mark_error_spec n e s m st :
  db_stats s = Some m -> lookup n m = Some st ->
  mark_error n e s =
  (Ok tt, s_with_stats s (assoc_set n (mkdbstat "error" (size_mb st) (document_count st)
             (w_now (world_ s)) (error_count st + 1)%Z (Some (exn_str e))) m)).
Proof.
  intros Hm Hst.
  unfold mark_error, stat_of, put_stat, bind, get, ret, raise, modify; cbv beta iota.
  rewrite Hm. cbv beta iota. rewrite Hst. cbv beta iota. rewrite Hm. reflexivity.
Qed.

Lemma list_set_with_oid_user r l :
  user_id (nth r (list_set r (with_oid (nth r l default_interaction)) l) default_interaction) =
  user_id (nth r l default_interaction).
Proof.
  revert r; induction l as [|y l IH]; intros [|r]; cbn; auto.
Qed.

Lemma store_fail_spec a r c s m st :
  lookup a (db_connections s) = Some c ->
  (ctype c = "mongodb" \/ ctype c = "redis") ->
  w_write_fail (world_ s) a = true ->
  oid (nth r (heap s) default_interaction) = false ->
  db_stats s = Some m -> lookup a m = Some st ->
  exists s1, _store_in_database a r s = (Ok false, s1) /\
    db_connections s1 = db_connections s /\ db_config s1 = db_config s /\
    active_db s1 = active_db s /\ fallback_to_file s1 = fallback_to_file s /\
    writes s1 = writes s ++ [WBackend a] /\
    db_stats s1 = Some (assoc_set a (mkdbstat "error" (size_mb st) (document_count st)
             (w_now (world_ s)) (error_count st + 1)%Z (Some (exn_str ServerError))) m) /\
    user_id (nth r (heap s1) default_interaction) = user_id (nth r (heap s) default_interaction).
Proof.
  intros Hc Ht Hf Ho Hm Hst.
  unfold _store_in_database, conn_of, deref, heap_set, log_write, bind, get, ret,
    try_except, modify, raise.
  cbv beta iota zeta. rewrite Hc. cbv beta iota.
  destruct Ht as [Ht|Ht]; rewrite Ht.
  - rewrite String.eqb_refl. rewrite Ho. cbn [s_with_world s_with_heap w_log world_ heap
      w_write_fail]. rewrite Hf.
    rewrite (mark_error_spec _ _ _ m st); [|exact Hm|exact Hst].
    match goal with |- context [save_db_stats ?t] =>
      pose proof (save_db_stats_ok t) as O; pose proof (core_save_db_stats t) as K;
      destruct (save_db_stats t) as [[[]|x] sd] end; cbn in O; [|discriminate].
    injection K as K1 K2 K3 K4 K5 K6 K7.
    eexists; split; [reflexivity|]. cbn - [list_set] in *.
    rewrite K1, K2, K3, K4, K5, K6, K7. unfold writes; cbn.
    repeat split; try reflexivity. apply list_set_with_oid_user.
  - change (String.eqb "redis" "mongodb") with false. rewrite String.eqb_refl.
    cbv beta iota. rewrite Ho.
    cbn [s_with_world w_log world_ w_write_fail]. rewrite Hf.
    rewrite (mark_error_spec _ _ _ m st); [|exact Hm|exact Hst].
    match goal with |- context [save_db_stats ?t] =>
      pose proof (save_db_stats_ok t) as O; pose proof (core_save_db_stats t) as K;
      destruct (save_db_stats t) as [[[]|x] sd] end; cbn in O; [|discriminate].
    injection K as K1 K2 K3 K4 K5 K6 K7.
    eexists; split; [reflexivity|]. cbn in *.
    rewrite K1, K2, K3, K4, K5, K6, K7. unfold writes; cbn.
    repeat split; reflexivity.
Qed.

(* ------------------------------------------------------------------ *)
(** ** A write with its statistics entry in place never raises *)

Section Pres.
Context {A B : Type} (P : S -> Prop).

Lemma pres_bind (m : M A) (k : A -> M B) :
  preserves P m -> (forall a, preserves P (k a)) -> preserves P (bind m k).
Proof.
  intros Hm Hk s Hs; unfold bind.
  specialize (Hm s Hs); destruct (m s) as [[a|e] s'] eqn:E; cbn in *.
  - apply Hk; exact Hm.
  - exact Hm.
Qed.

Lemma pres_try (m : M A) (h : exn -> M A) :
  preserves P m -> (forall e, preserves P (h e)) -> preserves P (try_except m h).
Proof.
  intros Hm Hh s Hs; unfold try_except.
  specialize (Hm s Hs); destruct (m s) as [[a|e] s'] eqn:E; cbn in *.
  - exact Hm.
  - apply Hh; exact Hm.
Qed.

Lemma pres_stats (m : M A) :
  (forall s s', db_stats s = db_stats s' -> P s -> P s') ->
  keeps_proj db_stats m -> preserves P m.
Proof. intros HP Hm s Hs. apply (HP s); [symmetry; apply Hm|exact Hs]. Qed.

End Pres.

Lemma has_stat_stats n s s' : db_stats s = db_stats s' -> has_stat n s -> has_stat n s'.
Proof. unfold has_stat; intros <-; trivial. Qed.

Lemma lookup_assoc_set_neq {A} k k' (v : A) l :
  k' <> k -> lookup k' (assoc_set k v l) = lookup k' l.
Proof.
  intro H. induction l as [|[k0 v0] l IH]; cbn.
  - apply String.eqb_neq in H. rewrite H. reflexivity.
  - destruct (String.eqb k k0) eqn:E; cbn.
    + apply String.eqb_eq in E; subst k0.
      apply String.eqb_neq in H. rewrite H. reflexivity.
    + rewrite IH. reflexivity.
Qed.

Lemma mem_assoc_set {A} n k (v : A) l : mem n l = true -> mem n (assoc_set k v l) = true.
Proof.
  unfold mem. intro H. destruct (String.eqb n k) eqn:E.
  - apply String.eqb_eq in E; subst. rewrite lookup_assoc_set_eq. reflexivity.
  - apply String.eqb_neq in E. rewrite lookup_assoc_set_neq by exact E. exact H.
Qed.

Lemma pres_put_stat b n st : preserves (has_stat b) (put_stat n st).
Proof.
  intros s Hs. unfold put_stat, bind, get, modify, raise; cbv beta iota.
  destruct (db_stats s) as [m|] eqn:D; cbn; [|exact Hs].
  destruct Hs as [m' [D' Hm]]. rewrite D in D'; injection D' as <-.
  exists (assoc_set n st m); split; [reflexivity|apply mem_assoc_set, Hm].
Qed.

Create HintDb pres.
#[local] Hint Resolve pres_put_stat : pres.
#[local] Hint Extern 2 (preserves (has_stat _) _) =>
  apply pres_stats; [exact (has_stat_stats _) | solve [projs]] : pres.

Ltac pres_step :=
  match goal with
  | |- preserves _ (bind _ _) => apply pres_bind; [|intro]
  | |- preserves _ (try_except _ _) => apply pres_try; [|intro]
  | |- preserves _ (if ?b then _ else _) => destruct b
  | |- preserves _ (match ?x with _ => _ end) => destruct x
  | |- _ => solve [eauto with pres]
  end.

Ltac pres := cbv zeta; repeat pres_step.

Lemma stats_save_db_stats : keeps_proj db_stats save_db_stats.
Proof. unfold save_db_stats; projs. Qed.
Lemma stats_heap_set r x : keeps_proj db_stats (heap_set r x).
Proof. unfold heap_set; projs. Qed.
Lemma stats_log_write e : keeps_proj db_stats (log_write e).
Proof. unfold log_write; projs. Qed.
#[local] Hint Resolve stats_save_db_stats stats_heap_set stats_log_write : proj.

Lemma pres_mark_error b n e : preserves (has_stat b) (mark_error n e).
Proof. unfold mark_error; pres. Qed.
#[local] Hint Resolve pres_mark_error : pres.
Lemma pres_update_mongodb_stats b n : preserves (has_stat b) (update_mongodb_stats n).
Proof. unfold update_mongodb_stats; pres. Qed.
Lemma pres_update_redis_stats b n : preserves (has_stat b) (update_redis_stats n).
Proof. unfold update_redis_stats; pres. Qed.
#[local] Hint Resolve pres_update_mongodb_stats pres_update_redis_stats : pres.
Lemma pres_store_in_database b n r : preserves (has_stat b) (_store_in_database n r).
Proof. unfold _store_in_database; pres. Qed.

Lemma mark_error_ok n e s : has_stat n s -> fst (mark_error n e s) = Ok tt.
Proof.
  intros [m [Hm Hn]]. unfold mem in Hn.
  destruct (lookup n m) as [st|] eqn:L; [|discriminate].
  rewrite (mark_error_spec _ _ _ m st Hm L). reflexivity.
Qed.

Lemma store_in_database_ok b r s : has_stat b s -> exists v, fst (_store_in_database b r s) = Ok v.
Proof.
  intro Hs. unfold _store_in_database, bind at 1.
  pose proof (readonly_conn_of b s) as R.
  destruct (conn_of b s) as [[oc|e] s1] eqn:E; cbn in R; subst s1;
    [|unfold conn_of, bind, get, ret in E; discriminate].
  destruct oc as [c|]; [|eexists; reflexivity].
  unfold try_except at 1.
  match goal with |- context [match ?t s with _ => _ end] =>
    assert (Hp : preserves (has_stat b) t) by pres;
    specialize (Hp s Hs); destruct (t s) as [[v|e] s2] eqn:E2; cbn in Hp
  end; [eexists; reflexivity|].
  unfold bind at 1. pose proof (mark_error_ok b e s2 Hp) as Me.
  destruct (mark_error b e s2) as [[[]|x] s3]; cbn in Me; [|discriminate].
  unfold bind. pose proof (save_db_stats_ok s3) as So.
  destruct (save_db_stats s3) as [[[]|x] s4]; cbn in So; [|discriminate].
  eexists; reflexivity.
Qed.

(* ------------------------------------------------------------------ *)
(** ** The failover's choice *)

Lemma is_database_available_eq n s :
  stats_wf s -> mem n (db_connections s) = true ->
  is_database_available n s = (Ok (avail s n), s).
Proof.
  intros [m [Hm Hmem]] Hn. specialize (Hmem n Hn).
  unfold is_database_available, conn_of, stat_of, bind, get, ret, raise, avail.
  cbv beta iota. unfold mem in Hn.
  destruct (lookup n (db_connections s)) as [c|]; [|discriminate].
  rewrite Hm. unfold mem in Hmem. destruct (lookup n m) as [st|]; [|discriminate].
  cbv beta iota. destruct (String.eqb (status st) "connected"); reflexivity.
Qed.

Lemma bind_ok {A B} (m : M A) (k : A -> M B) s a s' :
  m s = (Ok a, s') -> bind m k s = k a s'.
Proof. intro E; unfold bind; rewrite E; reflexivity. Qed.

Lemma prio_le_lt_false a b : prio_le a b = true -> prio_lt b a = false.
Proof.
  destruct a as [x|], b as [y|]; cbn; intro H; try reflexivity; try discriminate.
  apply Z.leb_le in H; apply Z.ltb_ge; lia.
Qed.

Lemma prio_le_false_lt a b : prio_le a b = false -> prio_lt b a = true.
Proof.
  destruct a as [x|], b as [y|]; cbn; intro H; try reflexivity; try discriminate.
  apply Z.leb_gt in H; apply Z.ltb_lt; lia.
Qed.

Lemma failover_loop_spec s cur L l :
  stats_wf s -> incl l L ->
  let G := fun c => prio_lt cur (Fin (priority c)) = true /\
                    mem (name c) (db_connections s) = true /\ avail s (name c) = true in
  forall nd np,
  ((nd = None /\ np = Inf) \/
   exists c0, In c0 L /\ G c0 /\ nd = Some (name c0) /\ np = Fin (priority c0)) ->
  exists r, failover_loop cur l nd np s = (Ok r, s) /\
  match r with
  | None => nd = None /\ forall c, In c l -> ~ G c
  | Some b => exists c, In c L /\ G c /\ name c = b /\ prio_le (Fin (priority c)) np = true /\
              forall c', In c' l -> G c' -> (priority c <= priority c')%Z
  end.
Proof.
  intros Hwf Hincl G.
  induction l as [|cfg l IH]; intros nd np Hacc; cbn [failover_loop].
  - exists nd; split; [reflexivity|].
    destruct Hacc as [[-> ->]|[c0 [Hin [Hg [-> ->]]]]].
    + split; [reflexivity|intros c []].
    + exists c0. repeat split; try assumption; try apply Hg.
      * cbn. apply Z.leb_refl.
      * intros c' [].
  - assert (Hl : incl l L) by (intros x Hx; apply Hincl; right; exact Hx).
    assert (HcL : In cfg L) by (apply Hincl; left; reflexivity).
    destruct (prio_le (Fin (priority cfg)) cur) eqn:Ple.
    + apply prio_le_lt_false in Ple.
      destruct (IH Hl nd np Hacc) as [r [E Hr]]. exists r; split; [exact E|].
      destruct r as [b|].
      * destruct Hr as [c [H1 [H2 [H3 [H4 H5]]]]]. exists c; do 4 (split; [assumption|]).
        intros c' [<-|Hc'] Hg; [destruct Hg as [Hg _]; congruence|apply H5; assumption].
      * destruct Hr as [H1 H2]. split; [exact H1|].
        intros c [<-|Hc] Hg; [destruct Hg as [Hg _]; congruence|apply (H2 c Hc Hg)].
    + apply prio_le_false_lt in Ple.
      erewrite bind_ok; [|reflexivity]. cbv beta.
      destruct (mem (name cfg) (db_connections s)) eqn:Hmem; cbn [negb].
      * erewrite bind_ok; [|apply is_database_available_eq; assumption]. cbv beta.
        destruct (avail s (name cfg) && prio_lt (Fin (priority cfg)) np) eqn:Ht.
        -- apply andb_true_iff in Ht as [Hav Hlt].
           assert (Gc : G cfg) by (repeat split; assumption).
           destruct (IH Hl (Some (name cfg)) (Fin (priority cfg))
                       (or_intror (ex_intro _ cfg (conj HcL (conj Gc (conj eq_refl eq_refl))))))
             as [r [E Hr]].
           exists r; split; [exact E|].
           destruct r as [b|]; [|destruct Hr as [Hr _]; discriminate].
           destruct Hr as [c [H1 [H2 [H3 [H4 H5]]]]]. exists c; do 3 (split; [assumption|]). split.
           ++ cbn in H4. apply Z.leb_le in H4.
              destruct np; cbn in *; [apply Z.ltb_lt in Hlt; apply Z.leb_le; lia|reflexivity].
           ++ intros c' [<-|Hc'] Hg; [cbn in H4; apply Z.leb_le in H4; exact H4|].
              apply H5; assumption.
        -- destruct (IH Hl nd np Hacc) as [r [E Hr]]. exists r; split; [exact E|].
           destruct r as [b|].
           ++ destruct Hr as [c [H1 [H2 [H3 [H4 H5]]]]]. exists c; do 4 (split; [assumption|]).
              intros c' [<-|Hc'] Hg; [|apply H5; assumption].
              destruct Hg as [_ [_ Hav]]. rewrite Hav in Ht. cbn in Ht.
              destruct np; cbn in *; [|discriminate].
              apply Z.ltb_ge in Ht. apply Z.leb_le in H4. lia.
           ++ destruct Hr as [H1 H2]. split; [exact H1|].
              intros c [<-|Hc] Hg; [|apply (H2 c Hc Hg)].
              destruct Hg as [_ [_ Hav]]. rewrite Hav in Ht.
              destruct Hacc as [[_ ->]|[c0 [_ [_ [Hnd _]]]]]; [discriminate|congruence].
      * destruct (IH Hl nd np Hacc) as [r [E Hr]]. exists r; split; [exact E|].
        destruct r as [b|].
        -- destruct Hr as [c [H1 [H2 [H3 [H4 H5]]]]]. exists c; do 4 (split; [assumption|]).
           intros c' [<-|Hc'] Hg; [destruct Hg as [_ [Hg _]]; congruence|apply H5; assumption].
        -- destruct Hr as [H1 H2]. split; [exact H1|].
           intros c [<-|Hc] Hg; [destruct Hg as [_ [Hg _]]; congruence|apply (H2 c Hc Hg)].
Qed.

Lemma failover_spec s1 a :
  stats_wf s1 -> active_db s1 = Some a -> a <> "" ->
  (forall cfg, In cfg (databases (db_config s1)) -> name cfg <> "") ->
  let dbs := databases (db_config s1) in
  let G := fun c => prio_lt (priority_of a dbs) (Fin (priority c)) = true /\
                    mem (name c) (db_connections s1) = true /\ avail s1 (name c) = true in
  (exists c, In c dbs /\ G c /\ (forall c', In c' dbs -> G c' -> (priority c <= priority c')%Z) /\
     _failover_to_next_database s1 =
       (Ok tt, s_with_active s1 (Some (name c)) (fallback_to_file s1))) \/
  ((forall c, In c dbs -> ~ G c) /\
     _failover_to_next_database s1 = (Ok tt, s_with_active s1 None true)).
Proof.
  intros Hwf Ha Hne Hnames dbs G.
  unfold _failover_to_next_database. erewrite bind_ok; [|reflexivity]. cbv beta zeta.
  rewrite Ha. cbn [name_truthy]. rewrite (proj2 (String.eqb_neq a "") Hne). cbn [negb].
  destruct (failover_loop_spec s1 (priority_of a dbs) dbs dbs Hwf (incl_refl _) None Inf
              (or_introl (conj eq_refl eq_refl))) as [r [E Hr]].
  fold dbs. rewrite (bind_ok _ _ _ _ _ E).
  destruct r as [b|].
  - destruct Hr as [c [H1 [H2 [H3 [_ H5]]]]]. subst b. left.
    exists c. split; [exact H1|split; [exact H2|split; [exact H5|]]].
    cbn [name_truthy]. rewrite (proj2 (String.eqb_neq (name c) "") (Hnames c H1)).
    reflexivity.
  - destruct Hr as [_ H2]. right. split; [exact H2|reflexivity].
Qed.

Lemma try_ok {A} (m : M A) h s a s' : m s = (Ok a, s') -> try_except m h s = (Ok a, s').
Proof. intro E; unfold try_except; rewrite E; reflexivity. Qed.

Lemma avail_other s s1 a v m n :
  db_connections s1 = db_connections s -> db_stats s = Some m ->
  db_stats s1 = Some (assoc_set a v m) -> n <> a -> avail s1 n = avail s n.
Proof.
  intros Hc Hm Hm1 Hn. unfold avail. rewrite Hc, Hm, Hm1.
  rewrite lookup_assoc_set_neq by exact Hn. reflexivity.
Qed.

Lemma avail_error s1 a v m :
  db_stats s1 = Some (assoc_set a v m) -> status v = "error" -> avail s1 a = false.
Proof.
  intros Hm1 Hv. unfold avail. rewrite Hm1, lookup_assoc_set_eq, Hv.
  destruct (lookup a (db_connections s1)); reflexivity.
Qed.

(* ------------------------------------------------------------------ *)
(** ** Group queries *)

Lemma readonly_read_group_backend g lim n c : readonly (read_group_backend g lim n c).
Proof. unfold read_group_backend; frames. Qed.

Lemma read_group_backend_returns g lim n c s e : fst (read_group_backend g lim n c s) <> Exn e.
Proof.
  unfold read_group_backend, bind, get, ret; cbv beta iota zeta.
  destruct (String.eqb (ctype c) "mongodb"); [|destruct (String.eqb (ctype c) "redis")];
    [destruct (w_read_fail (world_ s) n)..|]; discriminate.
Qed.

Lemma read_group_loop_eq g lim cs : forall acc s,
  read_group_loop g lim cs acc s = (Ok (acc ++ concat (map (group_part g lim s) cs)), s).
Proof.
  induction cs as [|[n c] cs IH]; intros acc s; cbn [read_group_loop].
  - cbn. rewrite app_nil_r. reflexivity.
  - unfold bind. pose proof (readonly_read_group_backend g lim n c s) as R.
    pose proof (read_group_backend_returns g lim n c s) as NE.
    unfold group_part at 1; cbn [fst snd map concat].
    destruct (read_group_backend g lim n c s) as [[p|e] s'] eqn:E; cbn in R; subst s';
      cbn [fst].
    + rewrite IH, app_assoc. reflexivity.
    + exfalso. apply (NE e). reflexivity.
Qed.

Lemma In_firstn_in {A} n (l : list A) x : In x (firstn n l) -> In x l.
Proof. intro H. rewrite <- (firstn_skipn n l). apply in_or_app; left; exact H. Qed.

Lemma In_skipn_in {A} n (l : list A) x : In x (skipn n l) -> In x l.
Proof. intro H. rewrite <- (firstn_skipn n l). apply in_or_app; right; exact H. Qed.

Lemma in_keep_last_100 l (x : interaction) : In x (keep_last_100 (l ++ [x])).
Proof.
  pose proof (keep_last_100_last l x) as K. unfold py_slice_from in K.
  eapply In_skipn_in. rewrite K. left; reflexivity.
Qed.

Lemma group_part_in g lim s nc x : In x (group_part g lim s nc) -> in_group g x = true.
Proof.
  destruct nc as [n c].
  unfold group_part, read_group_backend, bind, get, ret, raise; cbv beta iota zeta;
    cbn [fst snd].
  destruct (String.eqb (ctype c) "mongodb").
  - intro H. assert (H' : In x (map without_oid
                       (mongo_limit lim (sort_desc (filter (in_group g) (w_mongo (world_ s) n))))))
      by (destruct (w_read_fail (world_ s) n); [eapply In_firstn_in, H|exact H]).
    apply in_map_iff in H' as [y [<- Hy]].
    assert (Hs : In y (sort_desc (filter (in_group g) (w_mongo (world_ s) n)))).
    { unfold mongo_limit in Hy. destruct (lim =? 0)%Z; [exact Hy|eapply In_firstn_in, Hy]. }
    apply (Permutation_in _ (sort_by_perm _ _)), filter_In in Hs as [_ Hg].
    exact Hg.
  - destruct (String.eqb (ctype c) "redis"); [|cbn; contradiction].
    destruct (w_read_fail (world_ s) n); cbn [fst];
      intro H; apply filter_In in H as [_ Hg]; exact Hg.
Qed.

(** [get_group_interactions] with a positive [limit] reads every backend
    in [db_connections] (one whose read raises contributes the records it
    delivered before the exception) and
    returns at most [limit] of the collected records, exactly
    [min(limit, collected)], newest first.  Every record returned belongs
    to the group asked for, and the manager's state is unchanged. *)
Theorem get_group_interactions_spec g lim s :
  (0 < lim)%Z ->
  let parts := concat (map (group_part (py_str g) lim s) (db_connections s)) in
  exists res,
    get_group_interactions g lim s = (Ok res, s) /\
    (forall x, In x res -> in_group (py_str g) x = true) /\
    (exists rest, Permutation parts (res ++ rest)) /\
    length res = Nat.min (Z.to_nat lim) (length parts) /\
    Sorted newer_first res.
Proof.
  intros Hl parts.
  assert (Hq : get_group_interactions g lim s = (Ok (py_slice_to lim (sort_desc parts)), s)).
  { unfold get_group_interactions, bind, get, ret. cbv beta iota zeta.
    rewrite read_group_loop_eq. reflexivity. }
  exists (py_slice_to lim (sort_desc parts)).
  destruct (slice_sort_spec lim parts Hl) as [[rest P] [L So]].
  split; [exact Hq|]. split; [|split; [exists rest; exact P|split; [exact L|exact So]]].
  intros x Hx.
  assert (Hp : In x parts).
  { apply (Permutation_in _ (Permutation_sym P)), in_or_app; left; exact Hx. }
  unfold parts in Hp. apply in_concat in Hp as [p [Hp Hxp]].
  apply in_map_iff in Hp as [nc [<- _]]. exact (group_part_in _ _ _ _ _ Hxp).
Qed.

Lemma get_group_interactions_spec_witness :
  let s := running (mkconfig [mongo_cfg "A" 1] true true)
             (w_with_mongo (world_up (fun _ => false)) "A"
                [mkinteraction "42" "Toss?" "MI" "2024-04-01T19:00:00" "group" None
                   (Some "-1001") false]) (Some "A") false in
  (0 < 50)%Z /\ exists res, get_group_interactions (PInt (-1001)) 50 s = (Ok res, s) /\
    forall x, In x res -> in_group "-1001" x = true.
Proof.
  cbv zeta. split; [lia|].
  destruct (get_group_interactions_spec (PInt (-1001)) 50
              (running (mkconfig [mongo_cfg "A" 1] true true)
                 (w_with_mongo (world_up (fun _ => false)) "A"
                    [mkinteraction "42" "Toss?" "MI" "2024-04-01T19:00:00" "group" None
                       (Some "-1001") false]) (Some "A") false) ltac:(lia))
    as [res [H [G _]]].
  exists res. split; [exact H|exact G].
Defined.

(** Group queries never read the per-user files: with no backend
    connected, a group message recorded through the file fallback is in
    its sender's file, with the group's id (when the interactions directory
    can be created and the file written), and [get_group_interactions] for
    that group returns nothing. *)
Theorem group_record_not_returned u msg resp ct g fb lim s :
  learning_enabled (db_config s) = true ->
  db_connections s = [] -> active_db s = None ->
  w_dir_ok (world_ s) = true -> w_io_ok (world_ s) = true -> py_truthy g = true ->
  no_oid (file_records (world_ s) (py_str u)) = true ->
  let x := make_interaction u msg resp (w_now (world_ s)) ct g fb in
  let s' := snd (store_interaction u msg resp ct g fb s) in
  in_group (py_str g) x = true /\
  In x (file_records (world_ s') (py_str u)) /\
  fst (get_group_interactions g lim s') = Ok [].
Proof.
  intros Hl Hc Ha Hd Hio Hg Hf x s'.
  assert (Hx : in_group (py_str g) x = true).
  { unfold x, make_interaction, in_group; cbn [group_id]. rewrite Hg. apply String.eqb_refl. }
  split; [exact Hx|].
  unfold s'. rewrite (store_interaction_no_active _ _ _ _ _ _ _ Hl Ha).
  fold x.
  rewrite (store_in_file_spec _ _ x);
    [| apply nth_middle | exact Hd | exact Hio | exact Hf | reflexivity].
  cbn [snd]. split.
  - unfold file_records at 1. unfold s_with_world at 1; cbn [world_].
    replace (user_id x) with (py_str u) by reflexivity.
    rewrite w_files_with_file_same. cbv iota. apply in_keep_last_100.
  - unfold get_group_interactions, bind, get, ret. cbv beta iota zeta.
    unfold s_with_world at 1; cbn [db_connections]. unfold s_with_heap; cbn [db_connections].
    rewrite Hc. cbn [read_group_loop]. unfold ret; cbv beta iota.
    unfold py_slice_to; cbn. rewrite firstn_nil. reflexivity.
Qed.

Lemma group_record_not_returned_witness :
  let s := running (mkconfig [] true true) (world_up (fun _ => false)) None true in
  fst (get_group_interactions (PInt (-1001)) 50
         (snd (store_interaction (PInt 42) "Toss?" "MI" "group" (PInt (-1001)) None s))) = Ok [].
Proof.
  cbv zeta.
  exact (proj2 (proj2 (group_record_not_returned (PInt 42) "Toss?" "MI" "group" (PInt (-1001))
    None 50 (running (mkconfig [] true true) (world_up (fun _ => false)) None true)
    eq_refl eq_refl eq_refl eq_refl eq_refl eq_refl eq_refl))).
Defined.

(* ------------------------------------------------------------------ *)
(** ** What [/db_stats] shows as the active database *)

Lemma reachable_fallback_inv s : reachable s -> fallback_iff_no_active s.
Proof.
  induction 1 as [cfg w s E| s u m r ct g f o s' _ IH E | s u l o s' _ IH E
                 | s o s' _ IH E | s n o s' _ IH E | s o s' _ IH E | s w _ IH].
  - eapply construct_inv; exact E.
  - pose proof (inv_store_interaction u m r ct g f s IH) as H; rewrite E in H; exact H.
  - pose proof (readonly_get_user_interactions u l s) as H; rewrite E in H; cbn in H;
      subst; exact IH.
  - pose proof (keeps_af_inv _ keeps_get_database_stats s IH) as H; rewrite E in H; exact H.
  - pose proof (inv_db_switch n s IH) as H; rewrite E in H; exact H.
  - pose proof (inv_failover s IH) as H; rewrite E in H; exact H.
  - exact IH.
Qed.

(** In every state a constructed manager can reach, [get_active_database]
    returns a name, never [None]: ["file_storage"] in file mode, else the
    active database.  It changes nothing. *)
Theorem get_active_database_reachable s :
  reachable s ->
  exists n, get_active_database s = (Ok (Some n), s) /\
    (fallback_to_file s = true -> n = "file_storage") /\
    (fallback_to_file s = false -> active_db s = Some n).
Proof.
  intro R. pose proof (reachable_fallback_inv s R) as [I1 I2].
  unfold get_active_database, bind, get, ret; cbv beta iota.
  destruct (fallback_to_file s) eqn:F.
  - exists "file_storage"%string. split; [reflexivity|]. split; [reflexivity|discriminate].
  - destruct (active_db s) as [a|] eqn:A.
    + exists a. split; [reflexivity|]. split; [discriminate|reflexivity].
    + specialize (I2 eq_refl). discriminate.
Qed.

Lemma get_active_database_reachable_witness :
  let s0 := snd (construct (mkconfig [] true true) (world_up (fun _ => false))) in
  reachable s0 /\ get_active_database s0 = (Ok (Some "file_storage"), s0).
Proof.
  cbv zeta.
  assert (R : reachable (snd (construct (mkconfig [] true true) (world_up (fun _ => false)))))
    by (apply (reach_init (mkconfig [] true true) (world_up (fun _ => false))); vm_compute;
        reflexivity).
  split; [exact R|].
  destruct (get_active_database_reachable _ R) as [n [H [F _]]].
  rewrite H, F by reflexivity. reflexivity.
Defined.

(* ------------------------------------------------------------------ *)
(** ** Language statistics *)




Lemma lang_total_assoc_set (m : list (string * Z)) l v :
  lang_total (assoc_set l v m) = (lang_total m - lang_count m l + v)%Z.
Proof.
  unfold lang_count. induction m as [|[k x] m IH]; cbn.
  - lia.
  - destruct (String.eqb l k) eqn:E; cbn.
    + lia.
    + unfold lang_total in IH |- *. cbn. rewrite IH. lia.
Qed.

Lemma lang_bump_total m l : lang_total (lang_bump m l) = (lang_total m + 1)%Z.
Proof. unfold lang_bump. rewrite lang_total_assoc_set. unfold lang_count. lia. Qed.

Lemma lang_bump_count m l l' :
  lang_count (lang_bump m l) l' = (lang_count m l' + if String.eqb l' l then 1 else 0)%Z.
Proof.
  unfold lang_bump, lang_count. destruct (String.eqb l' l) eqn:E.
  - apply String.eqb_eq in E; subst. rewrite lookup_assoc_set_eq. reflexivity.
  - apply String.eqb_neq in E. rewrite lookup_assoc_set_neq by exact E. lia.
Qed.

Lemma fold_lang_bump ls : forall m,
  lang_total (fold_left lang_bump ls m) = (lang_total m + Z.of_nat (length ls))%Z /\
  forall l, lang_count (fold_left lang_bump ls m) l =
            (lang_count m l + Z.of_nat (count_occ string_dec ls l))%Z.
Proof.
  induction ls as [|x ls IH]; intro m; cbn [fold_left length count_occ].
  - split; [lia|intro; lia].
  - destruct (IH (lang_bump m x)) as [T C]. split.
    + rewrite T, lang_bump_total. lia.
    + intro l. rewrite C, lang_bump_count.
      destruct (string_dec x l) as [->|N].
      * rewrite String.eqb_refl. lia.
      * replace (String.eqb l x) with false
          by (symmetry; apply String.eqb_neq; intro; subst; contradiction). lia.
Qed.

(** In file mode, with no connection named ['mongodb'] or ['redis'] (as
    with the default database names), [get_language_stats] counts the
    entries of [data/interactions.json]: each language gets the number of
    entries carrying it (['unknown'] for an entry without one), and the
    total shown by [/language_stats] is the number of entries. *)
Theorem language_stats_file l s :
  fallback_to_file s = true ->
  lookup "mongodb" (db_connections s) = None -> lookup "redis" (db_connections s) = None ->
  exists m, get_language_stats (IJValid l) s = (Ok m, s) /\
    lang_total m = Z.of_nat (length l) /\
    forall lang, lang_count m lang =
                 Z.of_nat (count_occ string_dec (map entry_language l) lang).
Proof.
  intros F Hm Hr. unfold get_language_stats, bind, get, ret; cbv beta iota zeta.
  rewrite Hm, Hr, F.
  destruct (fold_lang_bump (map entry_language l) lang_init) as [T C].
  eexists. split; [reflexivity|]. split.
  - rewrite T, length_map. reflexivity.
  - intro lang. rewrite C. unfold lang_init, lang_count; cbn.
    destruct (String.eqb lang "english"); [lia|].
    destruct (String.eqb lang "telugu"); [lia|].
    destruct (String.eqb lang "unknown"); lia.
Qed.

Lemma language_stats_file_witness :
  let s := running (mkconfig [default_primary] true true) (world_up (fun _ => false)) None true in
  exists m, get_language_stats (IJValid [Some "telugu"; None; Some "telugu"]) s = (Ok m, s) /\
    lang_total m = 3%Z.
Proof.
  cbv zeta.
  destruct (language_stats_file [Some "telugu"; None; Some "telugu"]
              (running (mkconfig [default_primary] true true) (world_up (fun _ => false))
                 None true) eq_refl eq_refl eq_refl) as [m [H [T _]]].
  exists m. split; [exact H|exact T].
Defined.

(* ------------------------------------------------------------------ *)
(** ** Construction with the default configuration *)



(* ------------------------------------------------------------------ *)
(** ** Fresh statistics *)

Lemma lookup_assoc_set_cases {A} k n (v st : A) l :
  lookup n (assoc_set k v l) = Some st -> (n = k /\ st = v) \/ lookup n l = Some st.
Proof.
  destruct (String.eqb n k) eqn:E.
  - apply String.eqb_eq in E; subst. rewrite lookup_assoc_set_eq. intro H.
    injection H as <-. left; auto.
  - apply String.eqb_neq in E. rewrite lookup_assoc_set_neq by exact E. right; exact H.
Qed.

Lemma mem_assoc_set_iff {A} n k (v : A) l :
  mem n (assoc_set k v l) = true <-> n = k \/ mem n l = true.
Proof.
  unfold mem. destruct (String.eqb n k) eqn:E.
  - apply String.eqb_eq in E; subst. rewrite lookup_assoc_set_eq. tauto.
  - apply String.eqb_neq in E. rewrite lookup_assoc_set_neq by exact E.
    split; [right; exact H|intros [H|H]; [contradiction|exact H]].
Qed.

Lemma fold_fresh_stats (v : dbstat) l : forall acc,
  (forall n, mem n (fold_left (fun m cfg => assoc_set (name cfg) v m) l acc) = true <->
             mem n acc = true \/ In n (map name l)) /\
  (forall n st, lookup n (fold_left (fun m cfg => assoc_set (name cfg) v m) l acc) = Some st ->
                lookup n acc = Some st \/ st = v).
Proof.
  induction l as [|c l IH]; intro acc; cbn [fold_left map In].
  - split; [intro; tauto|intros; left; assumption].
  - destruct (IH (assoc_set (name c) v acc)) as [M1 L1]. split.
    + intro n. rewrite M1, mem_assoc_set_iff. split; [intros [[->|H]|H]; auto|].
      intros [H|[H|H]]; auto.
    + intros n st H. apply L1 in H as [H|H]; [|right; exact H].
      apply lookup_assoc_set_cases in H as [[_ ->]|H]; [right|left]; auto.
Qed.

(** Without a [db_stats.json], [load_db_stats] returns one entry for each
    configured database name and no other, each with status ['unknown'],
    size and counts zero, no error and the current time. *)
Theorem load_db_stats_fresh s :
  w_stats_file (world_ s) = None ->
  exists m, load_db_stats s = (Ok m, s) /\
    (forall n, mem n m = true <-> In n (map name (databases (db_config s)))) /\
    (forall n st, lookup n m = Some st ->
                  st = mkdbstat "unknown" 0 0 (w_now (world_ s)) 0 None).
Proof.
  intro F. unfold load_db_stats, bind, get, ret; cbv beta iota zeta. rewrite F.
  eexists. split; [reflexivity|].
  destruct (fold_fresh_stats (mkdbstat "unknown" 0 0 (w_now (world_ s)) 0 None)
              (databases (db_config s)) []) as [M1 L1].
  split.
  - intro n. rewrite M1. unfold mem at 1; cbn. split; [intros [H|H]; [discriminate|exact H]|auto].
  - intros n st H. apply L1 in H as [H|H]; [discriminate|exact H].
Qed.

Lemma load_db_stats_fresh_witness :
  let s := init_state cfg_AB (world_up (fun _ => false)) in
  exists m, load_db_stats s = (Ok m, s) /\ mem "B" m = true.
Proof.
  cbv zeta.
  destruct (load_db_stats_fresh (init_state cfg_AB (world_up (fun _ => false))) eq_refl)
    as [m [H [M1 _]]].
  exists m. split; [exact H|]. apply M1. right; left; reflexivity.
Defined.

(* ------------------------------------------------------------------ *)
(** ** The admin switch *)

Lemma map_fst_assoc_set_mem {A} k (v : A) l :
  mem k l = true -> map fst (assoc_set k v l) = map fst l.
Proof.
  unfold mem. induction l as [|[k' v'] l IH]; cbn; [discriminate|].
  destruct (String.eqb k k') eqn:E; cbn.
  - apply String.eqb_eq in E; subst. reflexivity.
  - intro H. rewrite IH by exact H. reflexivity.
Qed.

Lemma mem_map_fst {A B} n (l : list (string * A)) (l' : list (string * B)) :
  map fst l = map fst l' -> mem n l = mem n l'.
Proof.
  revert l'; unfold mem; induction l as [|[k v] l IH]; intros [|[k' v'] l'] H;
    cbn in H |- *; try discriminate; [reflexivity|].
  injection H as <- H. destruct (String.eqb n k); [reflexivity|]. apply IH, H.
Qed.

Lemma In_mem {A} n (v : A) l : In (n, v) l -> mem n l = true.
Proof.
  unfold mem. induction l as [|[k w] l IH]; cbn; [contradiction|]. intros [H|H].
  - injection H as -> ->. rewrite String.eqb_refl; reflexivity.
  - destruct (String.eqb n k); [reflexivity|apply IH, H].
Qed.

Lemma keys_save_db_stats : keeps_proj stat_keys save_db_stats.
Proof. unfold save_db_stats; projs. Qed.

Lemma keys_stat_put {B} n (F : dbstat -> dbstat) (k : unit -> M B) :
  (forall a, keeps_proj stat_keys (k a)) ->
  keeps_proj stat_keys (bind (stat_of n) (fun old => bind (put_stat n (F old)) k)).
Proof.
  intros Hk s. unfold stat_of, put_stat, bind, get, ret, raise, modify; cbv beta iota.
  destruct (db_stats s) as [m|] eqn:D; [|reflexivity].
  destruct (lookup n m) as [st|] eqn:L; [|reflexivity].
  rewrite D. cbv beta iota. rewrite Hk. unfold stat_keys; cbn. rewrite D; cbn. f_equal.
  apply map_fst_assoc_set_mem. unfold mem; rewrite L; reflexivity.
Qed.

Lemma keys_mark_error n e : keeps_proj stat_keys (mark_error n e).
Proof.
  intro s. destruct (db_stats s) as [m|] eqn:D.
  - destruct (lookup n m) as [st|] eqn:L.
    + rewrite (mark_error_spec n e s m st D L). unfold stat_keys; cbn. rewrite D; cbn.
      f_equal. apply map_fst_assoc_set_mem. unfold mem; rewrite L; reflexivity.
    + unfold mark_error, stat_of, bind, get, raise, ret; cbv beta iota. rewrite D.
      cbv beta iota. rewrite L. reflexivity.
  - rewrite mark_error_no_stats by exact D. reflexivity.
Qed.
#[local] Hint Resolve keys_save_db_stats keys_mark_error : proj.

Ltac keys := cbv zeta; repeat first [apply keys_stat_put; intro | proj_step].

Lemma keys_update_mongodb_stats n : keeps_proj stat_keys (update_mongodb_stats n).
Proof. unfold update_mongodb_stats; keys. Qed.
Lemma keys_update_redis_stats n : keeps_proj stat_keys (update_redis_stats n).
Proof. unfold update_redis_stats; keys. Qed.

Lemma conns_put_stat n st : keeps_proj db_connections (put_stat n st).
Proof. unfold put_stat; projs. Qed.
#[local] Hint Resolve conns_put_stat : proj.
Lemma conns_mark_error n e : keeps_proj db_connections (mark_error n e).
Proof. unfold mark_error; projs. Qed.
Lemma conns_save_db_stats : keeps_proj db_connections save_db_stats.
Proof. unfold save_db_stats; projs. Qed.
#[local] Hint Resolve conns_mark_error conns_save_db_stats : proj.
Lemma conns_update_mongodb_stats n : keeps_proj db_connections (update_mongodb_stats n).
Proof. unfold update_mongodb_stats; projs. Qed.
Lemma conns_update_redis_stats n : keeps_proj db_connections (update_redis_stats n).
Proof. unfold update_redis_stats; projs. Qed.
#[local] Hint Resolve keys_update_mongodb_stats keys_update_redis_stats
  conns_update_mongodb_stats conns_update_redis_stats : proj.

Lemma keys_stats_loop cs : keeps_proj stat_keys (stats_loop cs).
Proof. induction cs as [|[n c] cs IH]; cbn [stats_loop]; projs. Qed.
Lemma conns_stats_loop cs : keeps_proj db_connections (stats_loop cs).
Proof. induction cs as [|[n c] cs IH]; cbn [stats_loop]; projs. Qed.

Lemma update_mongodb_stats_ok n s : has_stat n s -> fst (update_mongodb_stats n s) = Ok tt.
Proof.
  intro Hs. unfold update_mongodb_stats at 1, bind at 1.
  pose proof (readonly_conn_of n s) as R.
  destruct (conn_of n s) as [[oc|e] s1] eqn:E; cbn in R; subst s1;
    [|unfold conn_of, bind, get, ret in E; discriminate].
  destruct oc as [c|]; [|reflexivity].
  unfold try_except at 1.
  match goal with |- context [match ?t s with _ => _ end] =>
    assert (Hp : preserves (has_stat n) t) by pres;
    specialize (Hp s Hs); destruct (t s) as [[[]|e] s2] eqn:E2; cbn in Hp
  end; [reflexivity|].
  unfold bind at 1. pose proof (mark_error_ok n e s2 Hp) as Me.
  destruct (mark_error n e s2) as [[[]|x] s3]; cbn in Me; [|discriminate].
  apply save_db_stats_ok.
Qed.

Lemma update_redis_stats_ok n s : has_stat n s -> fst (update_redis_stats n s) = Ok tt.
Proof.
  intro Hs. unfold update_redis_stats at 1, bind at 1.
  pose proof (readonly_conn_of n s) as R.
  destruct (conn_of n s) as [[oc|e] s1] eqn:E; cbn in R; subst s1;
    [|unfold conn_of, bind, get, ret in E; discriminate].
  destruct oc as [c|]; [|reflexivity].
  unfold try_except at 1.
  match goal with |- context [match ?t s with _ => _ end] =>
    assert (Hp : preserves (has_stat n) t) by pres;
    specialize (Hp s Hs); destruct (t s) as [[[]|e] s2] eqn:E2; cbn in Hp
  end; [reflexivity|].
  unfold bind at 1. pose proof (mark_error_ok n e s2 Hp) as Me.
  destruct (mark_error n e s2) as [[[]|x] s3]; cbn in Me; [|discriminate].
  apply save_db_stats_ok.
Qed.

Lemma stats_loop_step (m : M unit) cs s :
  fst (m s) = Ok tt -> (forall k, preserves (has_stat k) m) ->
  (forall s', (forall n c, In (n, c) cs -> has_stat n s') -> fst (stats_loop cs s') = Ok tt) ->
  (forall n c, In (n, c) cs -> has_stat n s) -> fst ((m ;;; stats_loop cs) s) = Ok tt.
Proof.
  intros Hm Hp IH H. unfold bind.
  pose proof (fun k => Hp k s) as P.
  destruct (m s) as [[[]|e] s1] eqn:E; cbn in Hm, P; [|discriminate].
  apply IH. intros n c Hin. exact (P n (H n c Hin)).
Qed.

Lemma stats_loop_ok cs : forall s,
  (forall n c, In (n, c) cs -> has_stat n s) -> fst (stats_loop cs s) = Ok tt.
Proof.
  induction cs as [|[n c] cs IH]; intros s H; cbn [stats_loop]; [reflexivity|].
  assert (Hn : has_stat n s) by (apply (H n c); left; reflexivity).
  apply stats_loop_step; [| |exact IH|intros k c' Hin; apply (H k c'); right; exact Hin].
  - destruct (String.eqb (ctype c) "mongodb"); [apply update_mongodb_stats_ok, Hn|].
    destruct (String.eqb (ctype c) "redis"); [apply update_redis_stats_ok, Hn|reflexivity].
  - intro k. pres.
Qed.

Lemma get_database_stats_wf s m :
  db_stats s = Some m -> (forall n, mem n (db_connections s) = true -> mem n m = true) ->
  exists m' s', get_database_stats s = (Ok m', s') /\ map fst m' = map fst m /\
    db_connections s' = db_connections s /\ af s' = af s.
Proof.
  intros D W.
  pose proof (stats_loop_ok (db_connections s) s) as Ok1.
  pose proof (keys_stats_loop (db_connections s) s) as K.
  pose proof (conns_stats_loop (db_connections s) s) as C.
  pose proof (keeps_stats_loop (db_connections s) s) as A.
  unfold get_database_stats, bind, get, ret, raise; cbv beta iota.
  destruct (stats_loop (db_connections s) s) as [[[]|e] s1] eqn:E; cbn [fst snd] in *.
  - unfold stat_keys in K; rewrite D in K.
    destruct (db_stats s1) as [m'|] eqn:D1; cbn in K; [|discriminate]. injection K as K.
    exists m', s1. repeat split; assumption.
  - exfalso. assert (Ok1' : Exn e = Ok tt).
    { apply Ok1. intros n c Hin. exists m. split; [exact D|]. apply W, (In_mem n c), Hin. }
    discriminate.
Qed.

(** [/db_switch n] answers from the keys of [self.db_stats], which the
    statistics refresh it runs first does not change: when every connected
    database has a statistics entry, a name without an entry is an unknown
    database, a name with one that is not connected is reported as not
    connected (nothing changes), and a connected one becomes the active
    database with the file fallback cleared. *)
Theorem db_switch_reply n s m :
  db_stats s = Some m ->
  (forall k, mem k (db_connections s) = true -> mem k m = true) ->
  let r := db_switch n s in
  (mem n m = false -> fst r = Ok UnknownDatabase /\ af (snd r) = af s) /\
  (mem n m = true -> mem n (db_connections s) = false ->
     fst r = Ok NotConnected /\ af (snd r) = af s) /\
  (mem n m = true -> mem n (db_connections s) = true ->
     fst r = Ok Switched /\ active_db (snd r) = Some n /\ fallback_to_file (snd r) = false).
Proof.
  intros D W. cbv zeta.
  destruct (get_database_stats_wf s m D W) as [m' [s1 [E [K [C A]]]]].
  unfold db_switch. rewrite (bind_ok _ _ _ _ _ E). rewrite (mem_map_fst n m' m K).
  unfold bind, get, ret, modify; cbv beta iota.
  split; [|split]; intros Hm; rewrite Hm; cbn [negb]; cbv beta iota.
  - split; [reflexivity|exact A].
  - rewrite C. intro Hc; rewrite Hc. split; [reflexivity|exact A].
  - rewrite C. intro Hc; rewrite Hc. repeat split.
Qed.

Lemma db_switch_reply_witness :
  let s := running cfg_AB (world_up (fun _ => false)) (Some "A") false in
  fst (db_switch "B" s) = Ok Switched /\ active_db (snd (db_switch "B" s)) = Some "B".
Proof.
  cbv zeta.
  destruct (db_switch_reply "B" (running cfg_AB (world_up (fun _ => false)) (Some "A") false)
              (map (fun c => (name c, stat_connected)) (databases cfg_AB)) eq_refl)
    as [_ [_ H]].
  - intro k. unfold mem; cbn. destruct (String.eqb k "A"); [reflexivity|].
    destruct (String.eqb k "B"); [reflexivity|discriminate].
  - destruct (H eq_refl eq_refl) as [H1 [H2 _]]. split; assumption.
Defined.

(* ------------------------------------------------------------------ *)
(** ** Reachable states are in file mode *)

Lemma conns_log_write e : keeps_proj db_connections (log_write e).
Proof. unfold log_write; projs. Qed.
Lemma conns_alloc x : keeps_proj db_connections (alloc x).
Proof. unfold alloc; projs. Qed.
#[local] Hint Resolve conns_log_write conns_alloc conns_stats_loop : proj.

Lemma conns_store_in_file r : keeps_proj db_connections (_store_in_file r).
Proof. unfold _store_in_file; projs. Qed.

Lemma conns_get_database_stats : keeps_proj db_connections get_database_stats.
Proof. unfold get_database_stats; projs. Qed.

Lemma file_mode_kept {A} (m : M A) s :
  keeps_af m -> keeps_proj db_connections m -> file_mode s -> file_mode (snd (m s)).
Proof.
  intros K C [Hc [Ha Hf]]. specialize (K s). unfold af in K. injection K as K1 K2.
  split; [rewrite C; exact Hc|split; [rewrite K1; exact Ha|rewrite K2; exact Hf]].
Qed.

(** The three outcomes of [_store_in_file]: [os.makedirs] raises, the
    [open] for writing fails (caught), or the file is written. *)
Lemma store_in_file_cases r s :
  (w_dir_ok (world_ s) = false -> _store_in_file r s = (Exn OSError, s)) /\
  (w_dir_ok (world_ s) = true -> fst (_store_in_file r s) = Ok tt) /\
  (w_dir_ok (world_ s) = true -> w_io_ok (world_ s) = false ->
   _store_in_file r s =
   (Ok tt, s_with_world s (w_log (world_ s) (WFile (user_id (nth r (heap s) default_interaction)))))).
Proof.
  unfold _store_in_file, deref, bind, get, ret, raise, log_write, modify; cbv beta iota zeta.
  split; [|split]; intro Hd; rewrite Hd; cbn [negb]; cbv iota.
  - reflexivity.
  - destruct (w_io_ok (world_ s)); reflexivity.
  - intro Hio. rewrite Hio. reflexivity.
Qed.

Lemma store_file_mode u m r ct g f s :
  file_mode s -> file_mode (snd (store_interaction u m r ct g f s)).
Proof.
  intros F. destruct F as [Hc [Ha Hf]].
  destruct (learning_enabled (db_config s)) eqn:Hl.
  - rewrite (store_interaction_no_active _ _ _ _ _ _ _ Hl Ha).
    apply file_mode_kept; [apply keeps_store_in_file|apply conns_store_in_file|].
    split; [exact Hc|split; [exact Ha|exact Hf]].
  - unfold store_interaction, bind, get, ret. rewrite Hl. cbn [negb snd].
    split; [exact Hc|split; [exact Ha|exact Hf]].
Qed.

Lemma initialize_loop_skips l s s1 :
  db_stats s = None -> initialize_loop l s = (Ok tt, s1) -> s1 = s.
Proof.
  revert s; induction l as [|c l IH]; intros s H E; cbn [initialize_loop] in E.
  - injection E as <-; reflexivity.
  - unfold bind at 1 in E. revert E.
    destruct (String.eqb (uri c) "") eqn:Eu; intro E; [exact (IH s H E)|].
    destruct (String.eqb (dtype c) "mongodb" || String.eqb (dtype c) "redis") eqn:Et.
    + assert (Ht' : dtype c = "mongodb" \/ dtype c = "redis").
      { apply Bool.orb_true_iff in Et as [T|T]; apply String.eqb_eq in T; auto. }
      pose proof (initialize_attempt_raises c s H Ht') as R. revert E.
      destruct (try_except _ _ s) as [[u|e] s2]; cbn in R; [discriminate|].
      intro E; discriminate E.
    + apply Bool.orb_false_iff in Et as [E1 E2]. rewrite E1, E2 in E.
      unfold try_except, ret in E. exact (IH s H E).
Qed.

Lemma set_active_loop_empty l s :
  db_connections s = [] -> set_active_loop l s = (Ok tt, s_with_active s None true).
Proof.
  intro H. induction l as [|c l IH]; cbn [set_active_loop]; [reflexivity|].
  unfold bind at 1, in_conns, bind, get, ret. cbv beta iota. rewrite H. exact IH.
Qed.

Lemma construct_file_mode cfg w s : construct cfg w = (Ok tt, s) -> file_mode s.
Proof.
  unfold construct. unfold bind at 1.
  destruct (initialize_databases (init_state cfg w)) as [[u|e] s1] eqn:E1; [|discriminate].
  destruct u.
  assert (S1 : s1 = init_state cfg w)
    by (apply (initialize_loop_skips (databases cfg) (init_state cfg w)); [reflexivity|exact E1]).
  subst s1. unfold bind at 1, set_active_database, bind at 1, get. cbv beta iota.
  rewrite set_active_loop_empty by reflexivity.
  unfold bind, load_db_stats, get, ret, modify. cbv beta iota zeta.
  intro E; cbn in E; destruct (w_stats_file w); injection E as E; subst s;
    repeat split.
Qed.

Lemma db_switch_file_mode n s : file_mode s -> file_mode (snd (db_switch n s)).
Proof.
  intro F. unfold db_switch, bind at 1.
  pose proof (file_mode_kept _ s keeps_get_database_stats conns_get_database_stats F) as F1.
  destruct (get_database_stats s) as [[m|e] s1]; cbn [snd] in F1 |- *; [|exact F1].
  destruct (negb (mem n m)); [exact F1|].
  destruct F1 as [Hc [Ha Hf]].
  unfold bind, get, ret. cbv beta. rewrite Hc. cbn [snd mem lookup].
  split; [exact Hc|split; [exact Ha|exact Hf]].
Qed.

Lemma failover_file_mode s : file_mode s -> file_mode (snd (_failover_to_next_database s)).
Proof.
  intros [Hc [Ha Hf]]. unfold _failover_to_next_database, bind, get. cbv beta iota zeta.
  rewrite Ha. rewrite failover_loop_inf. cbn.
  split; [exact Hc|split; reflexivity].
Qed.

(** No database is ever connected in a state a constructed manager can
    reach: construction raises as soon as it attempts one (the C2 defect),
    and no later operation connects one. *)
Lemma reachable_file_mode s : reachable s -> file_mode s.
Proof.
  induction 1 as [cfg w s E| s u m r ct g f o s' _ IH E | s u l o s' _ IH E
                 | s o s' _ IH E | s n o s' _ IH E | s o s' _ IH E | s w _ IH].
  - eapply construct_file_mode; exact E.
  - pose proof (store_file_mode u m r ct g f s IH) as H; rewrite E in H; exact H.
  - pose proof (readonly_get_user_interactions u l s) as H; rewrite E in H; cbn in H;
      subst; exact IH.
  - pose proof (file_mode_kept _ s keeps_get_database_stats conns_get_database_stats IH) as H;
      rewrite E in H; exact H.
  - pose proof (db_switch_file_mode n s IH) as H; rewrite E in H; exact H.
  - pose proof (failover_file_mode s IH) as H; rewrite E in H; exact H.
  - exact IH.
Qed.

Lemma reachable_no_db_cfg : reachable (snd (construct no_db_cfg (world_up (fun _ => false)))).
Proof. apply (reach_init no_db_cfg (world_up (fun _ => false))). vm_compute. reflexivity. Qed.

Lemma get_interactions_from_file_eq u lim s :
  _get_interactions_from_file u lim s =
  (Ok (py_slice_from (- lim) (file_records (world_ s) (py_str u))), s).
Proof.
  unfold _get_interactions_from_file, bind, get, ret. cbv beta iota zeta.
  unfold file_records. destruct (w_files (world_ s) (py_str u)) as [[l|]|]; try reflexivity;
    unfold py_slice_from; rewrite skipn_nil; reflexivity.
Qed.

(** C3.  In every state a constructed manager can reach,
    [using_file_fallback] is true iff [active_backend] is null, and the
    invariant still holds after running [set_active_database], the write
    failover or the admin switch from there. *)
Theorem fallback_iff_no_active_reachable s :
  reachable s ->
  fallback_iff_no_active s /\
  fallback_iff_no_active (snd (set_active_database s)) /\
  fallback_iff_no_active (snd (_failover_to_next_database s)) /\
  (forall n, fallback_iff_no_active (snd (db_switch n s))).
Proof.
  intro R. pose proof (reachable_fallback_inv s R) as I.
  destruct (reachable_file_mode s R) as [Hc _].
  split; [exact I|]. split; [|split].
  - unfold set_active_database, bind, get. rewrite set_active_loop_empty by exact Hc.
    split; reflexivity.
  - apply inv_failover, I.
  - intro n. apply inv_db_switch, I.
Qed.

Lemma fallback_iff_no_active_reachable_witness :
  let s0 := snd (construct no_db_cfg (world_up (fun _ => false))) in
  reachable s0 /\ fallback_iff_no_active s0.
Proof.
  cbv zeta. split; [exact reachable_no_db_cfg|].
  apply (fallback_iff_no_active_reachable _ reachable_no_db_cfg).
Defined.

(** C1 (corrected).  In a reachable state, [record] with learning enabled
    writes only to the user's file.  If the interactions directory cannot
    be created it raises and stores nothing.  Otherwise it returns: the
    entry is appended (the file holds the last 100 of its old records and
    the entry) when the file can be written and holds only records
    [json.dump] can serialise; when the file cannot be opened for writing
    the error is caught and the entry is dropped, the files unchanged. *)
Theorem record_durable_reachable u msg resp ct g fb s :
  reachable s -> learning_enabled (db_config s) = true ->
  let x := make_interaction u msg resp (w_now (world_ s)) ct g fb in
  let o := fst (store_interaction u msg resp ct g fb s) in
  let w' := world_ (snd (store_interaction u msg resp ct g fb s)) in
  (w_dir_ok (world_ s) = false -> o = Exn OSError /\ w_files w' = w_files (world_ s)) /\
  (w_dir_ok (world_ s) = true -> o = Ok tt) /\
  (w_dir_ok (world_ s) = true -> w_io_ok (world_ s) = true ->
   no_oid (file_records (world_ s) (py_str u)) = true ->
   file_records w' (py_str u) = lastn 100 (file_records (world_ s) (py_str u) ++ [x])) /\
  (w_io_ok (world_ s) = false -> w_files w' = w_files (world_ s)).
Proof.
  intros R Hl x o w'. destruct (reachable_file_mode s R) as [Hc [Ha Hf]].
  unfold o, w'. rewrite (store_interaction_no_active _ _ _ _ _ _ _ Hl Ha). fold x.
  set (s1 := s_with_heap s (heap s ++ [x])).
  destruct (store_in_file_cases (length (heap s)) s1) as [C1 [C2 C3]].
  split; [|split; [|split]].
  - intro Hd. rewrite (C1 Hd). split; reflexivity.
  - exact C2.
  - intros Hd Hio Hno.
    rewrite (store_in_file_spec _ s1 x); [| apply nth_middle | exact Hd | exact Hio
                                         | exact Hno | reflexivity].
    cbn [snd]. unfold file_records at 1. unfold s_with_world at 1; cbn [world_].
    replace (user_id x) with (py_str u) by reflexivity.
    rewrite w_files_with_file_same. cbv iota. apply keep_last_100_lastn.
  - intro Hio. destruct (w_dir_ok (world_ s)) eqn:Hd.
    + rewrite (C3 Hd Hio). reflexivity.
    + rewrite (C1 Hd). reflexivity.
Qed.

Lemma record_durable_reachable_witness :
  let s := snd (construct no_db_cfg (world_up (fun _ => false))) in
  reachable s /\
  file_records (world_ (snd (record_42 s))) "42" =
    [make_interaction (PInt 42) "Who won the 2023 final?" "CSK" "2024-04-01T19:30:05.000001"
       "private" PNone None].
Proof.
  cbv zeta. split; [exact reachable_no_db_cfg|].
  destruct (record_durable_reachable (PInt 42) "Who won the 2023 final?" "CSK" "private" PNone None
              _ reachable_no_db_cfg ltac:(vm_compute; reflexivity)) as [_ [_ [H _]]].
  unfold record_42.
  refine (eq_trans (H ltac:(vm_compute; reflexivity) ltac:(vm_compute; reflexivity)
                      ltac:(vm_compute; reflexivity)) _).
  vm_compute. reflexivity.
Defined.

(** C1 (counterexample).  A manager built without databases, whose user
    file cannot be opened for writing: [record] sends the write, which
    fails, and returns normally; the entry is stored nowhere. *)
Lemma record_dropped_when_file_unwritable :
  let s := snd (construct no_db_cfg world_no_write) in
  reachable s /\ learning_enabled (db_config s) = true /\
  fst (record_42 s) = Ok tt /\
  w_writes (world_ (snd (record_42 s))) = [WFile "42"] /\
  (forall n, w_mongo (world_ (snd (record_42 s))) n = []) /\
  (forall n, w_redis (world_ (snd (record_42 s))) n = []) /\
  w_files (world_ (snd (record_42 s))) "42" = None.
Proof.
  cbv zeta. split; [apply (reach_init no_db_cfg world_no_write); vm_compute; reflexivity|].
  repeat split; try reflexivity; intro; reflexivity.
Qed.

(** C4 (code_bug).  The failover of [record] is never reached: a router
    configured with two reachable MongoDB backends A and B (the scenario
    of a failing write to A and a retry on B) cannot be built, and in every
    state a constructed manager can reach no backend is active or
    connected, so [record] sends no write to a backend, only one to the
    user's file. *)
Theorem failover_never_reached :
  fst (construct cfg_AB (world_up fails_A)) = Exn AttributeError /\
  forall s u m r ct g f, reachable s ->
    active_db s = None /\ db_connections s = [] /\
    (writes (snd (store_interaction u m r ct g f s)) = writes s \/
     writes (snd (store_interaction u m r ct g f s)) = writes s ++ [WFile (py_str u)]).
Proof.
  split; [vm_compute; reflexivity|].
  intros s u m r ct g f R. destruct (reachable_file_mode s R) as [Hc [Ha Hf]].
  split; [exact Ha|split; [exact Hc|]].
  destruct (learning_enabled (db_config s)) eqn:Hl.
  - rewrite (store_interaction_no_active _ _ _ _ _ _ _ Hl Ha).
    unfold _store_in_file, deref, bind, get, ret, raise, log_write, modify; cbv beta iota zeta.
    cbn [heap s_with_heap]. rewrite nth_middle.
    destruct (w_dir_ok _); [destruct (w_io_ok _)|]; cbn; [right|right|left]; reflexivity.
  - left. unfold store_interaction, bind, get, ret. rewrite Hl. reflexivity.
Qed.

Lemma failover_never_reached_witness :
  let s := snd (construct no_db_cfg (world_up (fun _ => false))) in
  reachable s /\
  (writes (snd (record_42 s)) = writes s \/ writes (snd (record_42 s)) = writes s ++ [WFile "42"]).
Proof.
  cbv zeta. split; [exact reachable_no_db_cfg|].
  exact (proj2 (proj2 (proj2 failover_never_reached _ (PInt 42) "Who won the 2023 final?" "CSK"
                         "private" PNone None reachable_no_db_cfg))).
Defined.

(** C6.  In every state a constructed manager can reach, a query with a
    positive [limit] reads the user's file (no backend is connected, so the
    backends return nothing and the file is always read) and returns the
    [limit] newest of its last [limit] records, sorted by timestamp, newest
    first: at most [limit] records, exactly min(limit, read); the state is
    unchanged. *)
Theorem query_reachable u lim s :
  reachable s -> (0 < lim)%Z ->
  let F := py_slice_from (- lim) (file_records (world_ s) (py_str u)) in
  exists res,
    get_user_interactions u lim s = (Ok res, s) /\
    res = py_slice_to lim (sort_desc F) /\
    (exists rest, Permutation F (res ++ rest)) /\
    length res = Nat.min (Z.to_nat lim) (length F) /\
    Sorted newer_first res.
Proof.
  intros R Hl F. destruct (reachable_file_mode s R) as [Hc _].
  exists (py_slice_to lim (sort_desc F)).
  split; [|split; [reflexivity|apply slice_sort_spec, Hl]].
  unfold get_user_interactions, bind, get, ret. cbv beta iota zeta.
  rewrite Hc. cbn [read_loop]. unfold ret; cbv beta iota.
  change (Datatypes.length (@nil interaction)) with 0%nat. cbn [Nat.eqb orb].
  rewrite get_interactions_from_file_eq. reflexivity.
Qed.

Lemma query_reachable_witness :
  let s := snd (construct no_db_cfg (world_up (fun _ => false))) in
  reachable s /\ fst (get_user_interactions (PInt 42) 10 s) = Ok [].
Proof.
  cbv zeta. split; [exact reachable_no_db_cfg|].
  destruct (query_reachable (PInt 42) 10 _ reachable_no_db_cfg ltac:(lia)) as [res [H [E _]]].
  rewrite H, E. vm_compute. reflexivity.
Defined.

(** C7.  In every state a constructed manager can reach, with learning
    enabled, recording an entry and then querying its user with
    [limit=1] returns exactly the dict [store_interaction] built: same
    [user_id] (as [str]), [message], [response], [chat_type], [group_id] and
    [feedback], with the timestamp assigned by [record] — when the
    interactions directory can be created and the file written, and the
    user's file holds only records [json.dump] can serialise. *)
Theorem record_then_query_reachable u msg resp ct g fb s :
  reachable s -> learning_enabled (db_config s) = true ->
  w_dir_ok (world_ s) = true -> w_io_ok (world_ s) = true ->
  no_oid (file_records (world_ s) (py_str u)) = true ->
  fst (get_user_interactions u 1 (snd (store_interaction u msg resp ct g fb s))) =
  Ok [make_interaction u msg resp (w_now (world_ s)) ct g fb].
Proof.
  intros R Hl Hd Hio Hf. destruct (reachable_file_mode s R) as [Hc [Ha _]].
  apply round_trip_file_mode; assumption.
Qed.

Lemma record_then_query_reachable_witness :
  let s := snd (construct no_db_cfg (world_up (fun _ => false))) in
  reachable s /\
  fst (get_user_interactions (PInt 42) 1 (snd (record_42 s))) =
  Ok [make_interaction (PInt 42) "Who won the 2023 final?" "CSK" "2024-04-01T19:30:05.000001"
        "private" PNone None].
Proof.
  cbv zeta. split; [exact reachable_no_db_cfg|].
  apply (record_then_query_reachable (PInt 42) "Who won the 2023 final?" "CSK" "private" PNone None
           _ reachable_no_db_cfg); vm_compute; reflexivity.
Defined.

(* ------------------------------------------------------------------ *)
(** ** [AdminManager] *)

Lemma save_admin_data_data st : admin_data (save_admin_data st) = admin_data st.
Proof. unfold save_admin_data; destruct (a_io_ok st); reflexivity. Qed.

Lemma save_admin_data_config st : bot_config (save_admin_data st) = bot_config st.
Proof. unfold save_admin_data; destruct (a_io_ok st); reflexivity. Qed.

Lemma save_bot_config_data st : admin_data (save_bot_config st) = admin_data st.
Proof. unfold save_bot_config; destruct (a_io_ok st); reflexivity. Qed.

Lemma save_bot_config_config st : bot_config (save_bot_config st) = bot_config st.
Proof. unfold save_bot_config; destruct (a_io_ok st); reflexivity. Qed.

Lemma log_admin_action_data a x st : admin_data (log_admin_action a x st) = admin_data st.
Proof. unfold log_admin_action; destruct (a_io_ok st); reflexivity. Qed.

Lemma log_admin_action_config a x st : bot_config (log_admin_action a x st) = bot_config st.
Proof. unfold log_admin_action; destruct (a_io_ok st); reflexivity. Qed.

Lemma log_admin_action_io a x st : a_io_ok (log_admin_action a x st) = a_io_ok st.
Proof. unfold log_admin_action; destruct (a_io_ok st) eqn:E; exact E. Qed.

Lemma log_admin_action_now a x st : a_now (log_admin_action a x st) = a_now st.
Proof. unfold log_admin_action; destruct (a_io_ok st); reflexivity. Qed.

Lemma existsb_eqb_In x l : existsb (String.eqb x) l = true <-> In x l.
Proof.
  rewrite existsb_exists. split.
  - intros [y [I E]]. apply String.eqb_eq in E. subst y. exact I.
  - intro I. exists x. split; [exact I | apply String.eqb_refl].
Qed.

Lemma In_remove_first x y l : y <> x -> In y l -> In y (remove_first x l).
Proof.
  intro N. induction l as [|z l IH]; cbn; [tauto|].
  destruct (String.eqb x z) eqn:E.
  - apply String.eqb_eq in E. subst z. intros [H|H]; [congruence | exact H].
  - intros [H|H]; [left; exact H | right; exact (IH H)].
Qed.

Lemma remove_first_app_notin x l : ~ In x l -> remove_first x (l ++ [x]) = l.
Proof.
  induction l as [|z l IH]; cbn; intro N.
  - rewrite String.eqb_refl. reflexivity.
  - destruct (String.eqb x z) eqn:E.
    + apply String.eqb_eq in E. subst z. exfalso. apply N. left; reflexivity.
    + rewrite IH by tauto. reflexivity.
Qed.

Lemma assoc_del_lookup_neq {A} k n (l : list (string * A)) :
  n <> k -> lookup n (assoc_del k l) = lookup n l.
Proof.
  intro N. induction l as [|[k' v] l IH]; cbn; [reflexivity|].
  destruct (String.eqb k k') eqn:E.
  - apply String.eqb_eq in E. subst k'. apply String.eqb_neq in N. rewrite N. exact IH.
  - cbn. destruct (String.eqb n k'); [reflexivity | exact IH].
Qed.

Lemma assoc_del_assoc_set_new {A} k (v : A) l :
  mem k l = false -> assoc_del k (assoc_set k v l) = l.
Proof.
  unfold mem. induction l as [|[k' v'] l IH]; cbn; intro M.
  - rewrite String.eqb_refl. reflexivity.
  - destruct (String.eqb k k') eqn:E; [discriminate|].
    cbn. rewrite E. rewrite IH by exact M. reflexivity.
Qed.

Lemma assoc_set_lookup_same {A} k (v : A) l : lookup k l = Some v -> assoc_set k v l = l.
Proof.
  induction l as [|[k' v'] l IH]; cbn; intro L; [discriminate|].
  destruct (String.eqb k k') eqn:E.
  - apply String.eqb_eq in E. subst k'. injection L as ->. reflexivity.
  - rewrite IH by exact L. reflexivity.
Qed.

Lemma assoc_set_twice {A} k (v v' : A) l : assoc_set k v (assoc_set k v' l) = assoc_set k v l.
Proof.
  induction l as [|[k' w] l IH]; cbn.
  - rewrite String.eqb_refl. reflexivity.
  - destruct (String.eqb k k') eqn:E; cbn.
    + rewrite String.eqb_refl. reflexivity.
    + rewrite E, IH. reflexivity.
Qed.

Lemma protected_run_admin_op u o st :
  protected_admin u st -> protected_admin u (run_admin_op o st).
Proof.
  intro H. destruct o as [u' b p|u' b|u' p b|u' p b|k v b|a x]; unfold run_admin_op.
  - unfold add_admin. destruct (mem (py_str u') (admin_data st)) eqn:M; cbn [snd]; [exact H|].
    destruct H as [e [L [Sy F]]]. exists e.
    rewrite save_admin_data_data. unfold as_with_data; cbn [admin_data].
    rewrite lookup_assoc_set_neq; [auto|].
    intros ->. unfold mem in M. rewrite L in M. discriminate.
  - unfold remove_admin.
    destruct (lookup (py_str u') (admin_data st)) as [e'|] eqn:L'; cbn [snd]; [|exact H].
    destruct (str_contains "system" (entry_added_by e')) eqn:Sy'; cbn [snd]; [exact H|].
    destruct H as [e [L [Sy F]]]. exists e.
    rewrite save_admin_data_data. unfold as_with_data; cbn [admin_data].
    rewrite assoc_del_lookup_neq; [auto|].
    intros ->. rewrite L in L'. injection L' as <-. congruence.
  - unfold grant_permission.
    destruct (lookup (py_str u') (admin_data st)) as [e'|] eqn:L'; cbn [snd]; [|exact H].
    destruct (existsb (String.eqb p) (entry_permissions e')); cbn [snd]; [exact H|].
    cbv zeta. unfold protected_admin.
    rewrite log_admin_action_data, save_admin_data_data. unfold as_with_data; cbn [admin_data].
    destruct H as [e [L [Sy F]]].
    destruct (String.eqb u (py_str u')) eqn:E.
    + apply String.eqb_eq in E. rewrite E in L. rewrite L in L'. injection L' as <-.
      rewrite E. eexists. rewrite lookup_assoc_set_eq. split; [reflexivity|].
      unfold entry_added_by, entry_permissions in *; cbn. split; [exact Sy|].
      apply in_or_app. left; exact F.
    + apply String.eqb_neq in E. exists e. rewrite lookup_assoc_set_neq by exact E. auto.
  - unfold revoke_permission.
    destruct (lookup (py_str u') (admin_data st)) as [e'|] eqn:L'; cbn [snd]; [|exact H].
    destruct (negb (existsb (String.eqb p) (entry_permissions e'))); cbn [snd]; [exact H|].
    destruct (String.eqb p "full" && str_contains "system" (entry_added_by e')) eqn:G;
      cbn [snd]; [exact H|].
    cbv zeta. unfold protected_admin.
    rewrite log_admin_action_data, save_admin_data_data. unfold as_with_data; cbn [admin_data].
    destruct H as [e [L [Sy F]]].
    destruct (String.eqb u (py_str u')) eqn:E.
    + apply String.eqb_eq in E. rewrite E in L. rewrite L in L'. injection L' as <-.
      rewrite Sy, andb_true_r in G. apply String.eqb_neq in G.
      rewrite E. eexists. rewrite lookup_assoc_set_eq. split; [reflexivity|].
      unfold entry_added_by, entry_permissions in *; cbn. split; [exact Sy|].
      apply In_remove_first; [congruence | exact F].
    + apply String.eqb_neq in E. exists e. rewrite lookup_assoc_set_neq by exact E. auto.
  - unfold update_bot_config.
    destruct (negb (mem k (bot_config st))); cbn [snd]; [exact H|].
    destruct (bot_config_error k v); cbn [snd]; [exact H|].
    unfold protected_admin.
    rewrite log_admin_action_data, save_bot_config_data. unfold as_with_config; cbn [admin_data].
    exact H.
  - unfold protected_admin. rewrite log_admin_action_data. exact H.
Qed.

Lemma protected_run_admin_ops u ops st :
  protected_admin u st -> protected_admin u (run_admin_ops ops st).
Proof.
  unfold run_admin_ops. revert st. induction ops as [|o ops IH]; intros st H; cbn [fold_left].
  - exact H.
  - apply IH. apply protected_run_admin_op. exact H.
Qed.

Lemma load_bot_config_data st : admin_data (snd (load_bot_config st)) = admin_data st.
Proof.
  unfold load_bot_config. destruct (bot_config_file st); cbn [snd];
    try destruct (a_io_ok st); reflexivity.
Qed.

Lemma admin_init_fold_protected u ids st :
  protected_admin u st \/ (mem u (admin_data st) = false /\ In u (map py_str ids)) ->
  protected_admin u
    (fold_left (fun st a =>
       if mem (py_str a) (admin_data st) then st
       else as_with_data st (assoc_set (py_str a)
              (mkadmin (Some (a_now st)) (Some ["full"]) (Some "system"))
              (admin_data st)))
       ids st).
Proof.
  revert st. induction ids as [|a ids IH]; intros st H; cbn [fold_left].
  - destruct H as [H|[_ []]]. exact H.
  - apply IH. destruct H as [P|[M I]].
    + left. destruct (mem (py_str a) (admin_data st)) eqn:Ma; [exact P|].
      destruct P as [e [L R]]. exists e. unfold as_with_data; cbn [admin_data].
      rewrite lookup_assoc_set_neq; [exact (conj L R)|].
      intros ->. unfold mem in Ma. rewrite L in Ma. discriminate.
    + cbn [map In] in I. destruct (String.eqb (py_str a) u) eqn:E.
      * left. apply String.eqb_eq in E. subst u. rewrite M. eexists.
        unfold as_with_data; cbn [admin_data]. rewrite lookup_assoc_set_eq.
        split; [reflexivity|]. split; [reflexivity|]. cbn. left; reflexivity.
      * apply String.eqb_neq in E. destruct I as [I|I]; [contradiction|].
        right. split; [|exact I].
        destruct (mem (py_str a) (admin_data st)); [exact M|].
        unfold as_with_data; cbn [admin_data]. unfold mem in *.
        rewrite lookup_assoc_set_neq by congruence. exact M.
Qed.

Lemma admin_init_protected ids st0 u :
  In u (map py_str ids) -> mem u (load_admin_data st0) = false ->
  protected_admin u (admin_init ids st0).
Proof.
  intros I M. unfold admin_init.
  pose proof (load_bot_config_data (as_with_data st0 (load_admin_data st0))) as D.
  destruct (load_bot_config (as_with_data st0 (load_admin_data st0))) as [c st1].
  cbn [snd admin_data as_with_data] in D.
  unfold protected_admin. rewrite save_admin_data_data.
  apply admin_init_fold_protected. right.
  unfold as_with_config; cbn [admin_data]. rewrite D. split; [exact M | exact I].
Qed.

(** The admins that [AdminManager] is constructed with (and that
    admins.json did not already list) stay admins with every permission,
    whatever sequence of admin operations follows: [remove_admin] refuses
    them and [revoke_permission] refuses to take their ["full"]. *)
Theorem original_admin_keeps_permissions ids st0 ops u p :
  In u (map py_str ids) -> mem u (load_admin_data st0) = false ->
  is_admin (PStr u) (run_admin_ops ops (admin_init ids st0)) = true /\
  has_permission (PStr u) p (run_admin_ops ops (admin_init ids st0)) = true.
Proof.
  intros I M.
  destruct (protected_run_admin_ops u ops _ (admin_init_protected ids st0 u I M))
    as [e [L [_ F]]].
  unfold is_admin, has_permission, mem; cbn [py_str]. rewrite L. split; [reflexivity|].
  apply existsb_eqb_In in F. rewrite F. reflexivity.
Qed.

Lemma original_admin_keeps_permissions_witness :
  let ops := [RemoveAdmin (PInt 7) (PInt 9); RevokePermission (PInt 7) "full" (PInt 9)] in
  is_admin (PStr "7") (run_admin_ops ops (admin_init [PInt 7] admin_st0)) = true /\
  has_permission (PStr "7") "config" (run_admin_ops ops (admin_init [PInt 7] admin_st0)) = true.
Proof.
  cbv zeta. apply (original_admin_keeps_permissions [PInt 7] admin_st0 _ "7" "config").
  - vm_compute. left; reflexivity.
  - reflexivity.
Defined.

(** [add_admin] followed by [remove_admin] of the same user restores the
    admin table, when the user was not an admin and [str(added_by)] does
    not contain ["system"]: both calls succeed, and in between the user is
    an admin. *)
Theorem add_then_remove_admin u b p b' st :
  is_admin u st = false -> str_contains "system" (py_str b) = false ->
  fst (fst (add_admin u b p st)) = true /\
  is_admin u (snd (add_admin u b p st)) = true /\
  fst (fst (remove_admin u b' (snd (add_admin u b p st)))) = true /\
  admin_data (snd (remove_admin u b' (snd (add_admin u b p st)))) = admin_data st.
Proof.
  unfold is_admin. intros M Sy.
  unfold add_admin. rewrite M. cbn [fst snd].
  set (e := mkadmin _ _ _).
  assert (D : admin_data (save_admin_data (as_with_data st (assoc_set (py_str u) e (admin_data st))))
              = assoc_set (py_str u) e (admin_data st))
    by (rewrite save_admin_data_data; reflexivity).
  assert (Sy' : str_contains "system" (entry_added_by e) = false) by exact Sy.
  unfold remove_admin. rewrite D. unfold mem at 1. rewrite lookup_assoc_set_eq, Sy'.
  cbn [fst snd]. rewrite save_admin_data_data.
  change (admin_data (as_with_data ?x ?d)) with d.
  rewrite assoc_del_assoc_set_new by exact M. repeat split.
Qed.

Lemma add_then_remove_admin_witness :
  admin_data (snd (remove_admin (PInt 9) (PInt 7)
    (snd (add_admin (PInt 9) (PInt 7) None (admin_init [PInt 7] admin_st0)))))
  = admin_data (admin_init [PInt 7] admin_st0).
Proof.
  destruct (add_then_remove_admin (PInt 9) (PInt 7) None (PInt 7) (admin_init [PInt 7] admin_st0))
    as [_ [_ [_ H]]].
  - vm_compute. reflexivity.
  - vm_compute. reflexivity.
  - exact H.
Defined.

(** [grant_permission] followed by [revoke_permission] of the same
    permission restores the admin table, for an admin whose entry has a
    permissions list without that permission (and unless it is ["full"]
    on an admin [added_by] ["system"]); in between the admin has it. *)
Theorem grant_then_revoke u p b b' st e ps :
  lookup (py_str u) (admin_data st) = Some e -> permissions e = Some ps -> ~ In p ps ->
  (p = "full" -> str_contains "system" (entry_added_by e) = false) ->
  fst (fst (grant_permission u p b st)) = true /\
  has_permission u p (snd (grant_permission u p b st)) = true /\
  fst (fst (revoke_permission u p b' (snd (grant_permission u p b st)))) = true /\
  admin_data (snd (revoke_permission u p b' (snd (grant_permission u p b st)))) = admin_data st.
Proof.
  intros L P N F.
  assert (X : existsb (String.eqb p) (entry_permissions e) = false).
  { unfold entry_permissions. rewrite P.
    destruct (existsb (String.eqb p) ps) eqn:X; [|reflexivity].
    apply existsb_eqb_In in X. contradiction. }
  assert (G : (String.eqb p "full" && str_contains "system" (entry_added_by e)) = false).
  { destruct (String.eqb p "full") eqn:Pf; [|reflexivity].
    apply String.eqb_eq in Pf. rewrite (F Pf). reflexivity. }
  unfold grant_permission. rewrite L, X. cbv zeta. cbn [fst snd]. split; [reflexivity|].
  set (e' := mkadmin _ _ _).
  assert (D : forall a x, admin_data (log_admin_action a x
                (save_admin_data (as_with_data st (assoc_set (py_str u) e' (admin_data st)))))
              = assoc_set (py_str u) e' (admin_data st))
    by (intros; rewrite log_admin_action_data, save_admin_data_data; reflexivity).
  assert (X' : existsb (String.eqb p) (entry_permissions e') = true).
  { unfold e', entry_permissions at 1; cbn [permissions]. unfold entry_permissions; rewrite P.
    apply existsb_eqb_In. apply in_or_app. right; left; reflexivity. }
  assert (G' : (String.eqb p "full" && str_contains "system" (entry_added_by e')) = false)
    by exact G.
  unfold has_permission, revoke_permission. rewrite D, lookup_assoc_set_eq, X', orb_true_r.
  split; [reflexivity|]. rewrite G'. cbn [negb fst snd]. split; [reflexivity|].
  rewrite log_admin_action_data, save_admin_data_data.
  change (admin_data (as_with_data ?x ?d)) with d.
  rewrite assoc_set_twice.
  replace (mkadmin (added_at e') (Some (remove_first p (entry_permissions e'))) (added_by e'))
    with e.
  - apply assoc_set_lookup_same. exact L.
  - unfold e', entry_permissions; cbn. rewrite P, remove_first_app_notin by exact N.
    rewrite <- P. destruct e; reflexivity.
Qed.

Lemma grant_then_revoke_witness :
  let st := snd (add_admin (PInt 9) (PInt 7) None (admin_init [PInt 7] admin_st0)) in
  admin_data (snd (revoke_permission (PInt 9) "config" (PInt 7)
    (snd (grant_permission (PInt 9) "config" (PInt 7) st)))) = admin_data st.
Proof.
  cbv zeta.
  destruct (grant_then_revoke (PInt 9) "config" (PInt 7) (PInt 7)
              (snd (add_admin (PInt 9) (PInt 7) None (admin_init [PInt 7] admin_st0)))
              (mkadmin (Some "2026-01-01T00:00:00") (Some ["broadcast"; "stats"; "block"])
                 (Some "7"))
              ["broadcast"; "stats"; "block"]) as [_ [_ [_ H]]].
  - vm_compute. reflexivity.
  - reflexivity.
  - cbn. intros [H|[H|[H|H]]]; try discriminate; exact H.
  - intro H. discriminate.
  - exact H.
Defined.

Lemma keep_last_1000_lastn (l : list log_entry) :
  (if Nat.ltb 1000 (length l) then py_slice_from (-1000) l else l) = lastn 1000 l.
Proof.
  unfold lastn, py_slice_from, py_index.
  destruct (Nat.ltb 1000 (length l)) eqn:E.
  - apply Nat.ltb_lt in E. cbn - [Z.of_nat]. f_equal. lia.
  - apply Nat.ltb_ge in E. replace (length l - 1000)%nat with 0%nat by lia. reflexivity.
Qed.

Lemma lastn_lastn {A} k k' (l : list A) : (k <= k')%nat -> lastn k (lastn k' l) = lastn k l.
Proof.
  intro H. unfold lastn. rewrite length_skipn, skipn_skipn. f_equal. lia.
Qed.

Lemma py_slice_from_neg {A} lim (l : list A) :
  (0 < lim)%Z -> py_slice_from (- lim) l = lastn (Z.to_nat lim) l.
Proof.
  intro H. unfold py_slice_from, py_index, lastn.
  replace (- lim <? 0)%Z with true by (symmetry; apply Z.ltb_lt; lia). f_equal. lia.
Qed.

Lemma log_admin_action_file a x st :
  a_io_ok st = true ->
  log_file (log_admin_action a x st) =
  JValid (lastn 1000 (match log_file st with JValid l => l | _ => [] end ++
                      [mklog (py_str a) x (a_now st)])).
Proof.
  intro H. unfold log_admin_action. rewrite H. cbv zeta.
  rewrite keep_last_1000_lastn. reflexivity.
Qed.

Lemma log_all_cons a x acts st :
  log_all ((a, x) :: acts) st = log_all acts (log_admin_action a x st).
Proof. reflexivity. Qed.

Lemma log_all_file acts st L :
  a_io_ok st = true -> log_file st = JValid (lastn 1000 L) ->
  log_file (log_all acts st) = JValid (lastn 1000 (L ++ log_entries st acts)).
Proof.
  revert st L. induction acts as [|[a x] acts IH]; intros st L H F.
  - rewrite app_nil_r. exact F.
  - rewrite log_all_cons.
    assert (H' : a_io_ok (log_admin_action a x st) = true)
      by (rewrite log_admin_action_io; exact H).
    assert (F' : log_file (log_admin_action a x st) =
                 JValid (lastn 1000 (L ++ [mklog (py_str a) x (a_now st)])))
      by (rewrite (log_admin_action_file a x st H), F, lastn_app_lastn; reflexivity).
    rewrite (IH _ _ H' F').
    unfold log_entries. rewrite log_admin_action_now, <- app_assoc. reflexivity.
Qed.

(** Successive [log_admin_action] calls, the log file being writable,
    leave in admin_logs.json the last 1000 entries of the old log (an
    absent or unreadable one counting as empty) followed by the new ones,
    and [get_admin_logs limit], for [0 < limit <= 1000], returns the last
    [limit] of them. *)
Theorem admin_logs_keep_last_1000 acts st lim :
  a_io_ok st = true -> acts <> [] -> (0 < lim <= 1000)%Z ->
  log_file (log_all acts st) =
    JValid (lastn 1000 (match log_file st with JValid l => l | _ => [] end ++
                        log_entries st acts)) /\
  get_admin_logs lim (log_all acts st) =
    lastn (Z.to_nat lim) (match log_file st with JValid l => l | _ => [] end ++
                          log_entries st acts).
Proof.
  intros H NE Lim.
  assert (F : log_file (log_all acts st) =
    JValid (lastn 1000 (match log_file st with JValid l => l | _ => [] end ++
                        log_entries st acts))).
  { destruct acts as [|[a x] acts]; [contradiction|].
    rewrite log_all_cons.
    assert (H' : a_io_ok (log_admin_action a x st) = true)
      by (rewrite log_admin_action_io; exact H).
    assert (F' : log_file (log_admin_action a x st) =
                 JValid (lastn 1000 (lastn 1000
                   (match log_file st with JValid l => l | _ => [] end ++
                    [mklog (py_str a) x (a_now st)]))))
      by (rewrite (log_admin_action_file a x st H), lastn_lastn by lia; reflexivity).
    rewrite (log_all_file acts _ _ H' F'), lastn_app_lastn.
    unfold log_entries. rewrite log_admin_action_now, <- app_assoc. reflexivity. }
  split; [exact F|].
  unfold get_admin_logs. rewrite F, py_slice_from_neg by lia.
  apply lastn_lastn. lia.
Qed.

Lemma admin_logs_keep_last_1000_witness :
  let acts := [(PInt 7, "a"); (PInt 7, "b"); (PInt 9, "c")] in
  get_admin_logs 2 (log_all acts admin_st0) =
    lastn 2 (match log_file admin_st0 with JValid l => l | _ => [] end ++
             log_entries admin_st0 acts).
Proof.
  cbv zeta.
  apply (admin_logs_keep_last_1000 [(PInt 7, "a"); (PInt 7, "b"); (PInt 9, "c")] admin_st0 2).
  - reflexivity.
  - discriminate.
  - lia.
Defined.

(** [get_admin_logs limit] with [limit <= 0] does not return the empty
    list: [logs[-limit:]] drops the first [-limit] entries, so
    [get_admin_logs 0] returns the whole log. *)
Theorem get_admin_logs_nonpositive lim st l :
  log_file st = JValid l -> (lim <= 0)%Z ->
  get_admin_logs lim st = skipn (Z.to_nat (- lim)) l.
Proof.
  intros F H. unfold get_admin_logs, py_slice_from, py_index. rewrite F.
  replace (- lim <? 0)%Z with false by (symmetry; apply Z.ltb_ge; lia).
  destruct (Z.le_ge_cases (- lim) (Z.of_nat (length l))) as [C|C].
  - rewrite Z.min_l by exact C. reflexivity.
  - rewrite Z.min_r by exact C. rewrite Nat2Z.id.
    rewrite !skipn_all2 by lia. reflexivity.
Qed.

Lemma get_admin_logs_nonpositive_witness :
  let st := log_all [(PInt 7, "a"); (PInt 7, "b")] admin_st0 in
  get_admin_logs 0 st = [mklog "7" "a" (a_now admin_st0); mklog "7" "b" (a_now admin_st0)].
Proof.
  cbv zeta.
  apply (get_admin_logs_nonpositive 0 _
           [mklog "7" "a" (a_now admin_st0); mklog "7" "b" (a_now admin_st0)]).
  - vm_compute. reflexivity.
  - lia.
Defined.

Lemma update_bot_config_lookup k v b st n :
  n <> "last_updated" -> n <> "updated_by" ->
  lookup n (bot_config (snd (update_bot_config k v b st))) = lookup n (bot_config st) \/
  (n = k /\ lookup n (bot_config (snd (update_bot_config k v b st))) = Some v /\
   bot_config_error k v = None).
Proof.
  intros N1 N2. unfold update_bot_config.
  destruct (negb (mem k (bot_config st))); cbn [snd]; [left; reflexivity|].
  destruct (bot_config_error k v) eqn:Er; cbn [snd]; [left; reflexivity|].
  rewrite log_admin_action_config, save_bot_config_config.
  change (bot_config (as_with_config ?x ?c)) with c.
  rewrite 2 lookup_assoc_set_neq by assumption.
  destruct (String.eqb n k) eqn:E.
  - apply String.eqb_eq in E. subst n. right. rewrite lookup_assoc_set_eq. auto.
  - apply String.eqb_neq in E. left. apply lookup_assoc_set_neq. exact E.
Qed.

Lemma update_bot_config_ok k v b st :
  bot_config_ok (bot_config st) = true ->
  bot_config_ok (bot_config (snd (update_bot_config k v b st))) = true.
Proof.
  unfold bot_config_ok. intro Ok. apply forallb_forall. intros n I.
  pose proof (proj1 (forallb_forall _ _) Ok n I) as Old.
  assert (N : n <> "last_updated" /\ n <> "updated_by")
    by (cbn in I; intuition (subst; discriminate)).
  destruct N as [N1 N2].
  destruct (update_bot_config_lookup k v b st n N1 N2) as [E|[-> [E Er]]].
  - rewrite E. exact Old.
  - rewrite E. unfold bot_config_error in Er.
    destruct (valid_values k) as [[msg vs]|]; [|reflexivity].
    destruct (existsb (String.eqb v) vs); [reflexivity | discriminate].
Qed.

Lemma run_admin_op_config_ok o st :
  bot_config_ok (bot_config st) = true -> bot_config_ok (bot_config (run_admin_op o st)) = true.
Proof.
  intro H. destruct o as [u b p|u b|u p b|u p b|k v b|a x]; unfold run_admin_op.
  - unfold add_admin. destruct (mem (py_str u) (admin_data st)); cbn [snd]; [exact H|].
    rewrite save_admin_data_config. exact H.
  - unfold remove_admin. destruct (lookup (py_str u) (admin_data st)) as [e|]; cbn [snd];
      [|exact H].
    destruct (str_contains "system" (entry_added_by e)); cbn [snd]; [exact H|].
    rewrite save_admin_data_config. exact H.
  - unfold grant_permission. destruct (lookup (py_str u) (admin_data st)) as [e|]; cbn [snd];
      [|exact H].
    destruct (existsb (String.eqb p) (entry_permissions e)); cbn [snd]; [exact H|].
    rewrite log_admin_action_config, save_admin_data_config. exact H.
  - unfold revoke_permission. destruct (lookup (py_str u) (admin_data st)) as [e|]; cbn [snd];
      [|exact H].
    destruct (negb (existsb (String.eqb p) (entry_permissions e))); cbn [snd]; [exact H|].
    destruct (String.eqb p "full" && str_contains "system" (entry_added_by e)); cbn [snd];
      [exact H|].
    rewrite log_admin_action_config, save_admin_data_config. exact H.
  - apply update_bot_config_ok. exact H.
  - rewrite log_admin_action_config. exact H.
Qed.

Lemma admin_init_fold_config ids st :
  bot_config
    (fold_left (fun st a =>
       if mem (py_str a) (admin_data st) then st
       else as_with_data st (assoc_set (py_str a)
              (mkadmin (Some (a_now st)) (Some ["full"]) (Some "system"))
              (admin_data st)))
       ids st) = bot_config st.
Proof.
  revert st. induction ids as [|a ids IH]; intro st; cbn [fold_left]; [reflexivity|].
  rewrite IH. destruct (mem (py_str a) (admin_data st)); reflexivity.
Qed.

(** The four keys [update_bot_config] validates ([supported_team],
    [response_style], [prediction_confidence], [learning_rate]) hold
    accepted values, when present, after [AdminManager] is constructed
    (the default configuration it writes satisfies this; a bot_config.json
    it reads must) and after any sequence of admin operations. *)
Theorem bot_config_stays_valid ids st0 ops :
  match bot_config_file st0 with JValid c => bot_config_ok c = true | _ => True end ->
  bot_config_ok (bot_config (run_admin_ops ops (admin_init ids st0))) = true.
Proof.
  intro Hf. unfold run_admin_ops.
  assert (I : bot_config_ok (bot_config (admin_init ids st0)) = true).
  { unfold admin_init, load_bot_config.
    destruct (bot_config_file (as_with_data st0 (load_admin_data st0))) eqn:Ef;
      cbv zeta iota; rewrite save_admin_data_config, admin_init_fold_config;
      change (bot_config (as_with_config ?x ?c)) with c; try reflexivity.
    change (bot_config_file (as_with_data ?x ?d)) with (bot_config_file x) in Ef.
    rewrite Ef in Hf. exact Hf. }
  revert I. generalize (admin_init ids st0). induction ops as [|o ops IH]; intros st I;
    cbn [fold_left]; [exact I|].
  apply IH. apply run_admin_op_config_ok. exact I.
Qed.

Lemma bot_config_stays_valid_witness :
  bot_config_ok (bot_config (run_admin_ops
    [UpdateBotConfig "supported_team" "Chennai Super Kings" (PInt 7);
     UpdateBotConfig "response_style" "sarcastic" (PInt 7)]
    (admin_init [PInt 7] admin_st0))) = true.
Proof.
  apply (bot_config_stays_valid [PInt 7] admin_st0). exact I.
Defined.

(** When [update_bot_config] rejects the key or the value (it returns
    [False] and changes nothing: no new value, no file written, no log
    entry), [/config key value] still goes on as after a success, since the
    handler drops the result: it answers "Configuration updated
    successfully" with the text of [format_bot_config] for the unchanged
    configuration, or, when that configuration lacks one of the keys
    [format_bot_config] reads, the [KeyError] escapes the handler and no
    reply is sent. *)
Theorem config_command_ignores_rejection k v u st :
  mem k (bot_config st) = false \/ bot_config_error k v <> None ->
  fst (fst (update_bot_config k v u st)) = false /\
  config_command_set k v u st =
    (match format_bot_config st with
     | Some info => ConfigUpdated info
     | None => ConfigRaised KeyError
     end, st).
Proof.
  intro H.
  assert (U : update_bot_config k v u st = ((false, snd (fst (update_bot_config k v u st))), st)).
  { unfold update_bot_config. destruct H as [M|E].
    - rewrite M. reflexivity.
    - destruct (negb (mem k (bot_config st))); [reflexivity|].
      destruct (bot_config_error k v) as [m|]; [reflexivity|contradiction]. }
  unfold config_command_set. rewrite U. split; [reflexivity|].
  destruct (format_bot_config st); reflexivity.
Qed.

Lemma config_command_ignores_rejection_witness :
  let st := admin_init [PInt 7] admin_st_team_only in
  config_command_set "learning_rate" "fast" (PInt 7) st = (ConfigRaised KeyError, st).
Proof.
  cbv zeta.
  destruct (config_command_ignores_rejection "learning_rate" "fast" (PInt 7)
              (admin_init [PInt 7] admin_st_team_only)) as [_ H];
    [left; vm_compute; reflexivity|].
  rewrite H. vm_compute. reflexivity.
Defined.
